(** * XenaxController: a shallow embedding of [XenaxController.py]

    The class drives a linear-motor rail controller over one TCP socket with
    a textual command/response protocol.  Its methods are embedded as
    computations over a machine state made of the object's attributes
    ([client]) and of the socket together with the peer behind it ([world]).

    - Python [str] values are lists of code points, [bytes] values are lists
      of octets; [encode]/[decode] are UTF-8, the default codec of
      [str.encode] and [bytes.decode].
    - Exceptions keep the state reached when they were raised: Python does
      not roll attribute writes back.
    - A computation yields [None] when it has not returned: the drain loop of
      [clear_buffer] ran out of fuel, or a [recv] on a socket without timeout
      waits for a peer that stays silent.
    - The peer is an oracle: [rx] gives what the n-th call of [recv] meets,
      [tx] whether the n-th call of [sendall] goes through.
    - Timeouts are in milliseconds ([0.1] seconds is [100]); [None] is a
      socket that blocks without limit and [Some 0] a non-blocking one.
    - [connect] takes what the operating system answers as arguments: the
      descriptor of the new socket and whether the peer accepts, with the
      oracle of the new connection. *)

From Stdlib Require Import ZArith NArith List String Ascii Bool Lia.
From Stdlib Require Import DecimalString SpecFloat.
Import ListNotations.

Local Open Scope Z_scope.

(** ** Text and bytes *)

Definition str := list N.
Definition bytes := list N.

(** A literal of the source, character by character. *)
Definition lit (s : string) : str :=
  map N_of_ascii (list_ascii_of_string s).

Definition CR : N := 13%N.
Definition LF : N := 10%N.

(** [str(n)] for an [int]. *)
Definition str_of_int (z : Z) : str :=
  lit (NilZero.string_of_int (Z.to_int z)).

(** [str(b)] for a [bool]. *)
Definition str_of_bool (b : bool) : str :=
  if b then lit "True" else lit "False".

Definition encode_char (c : N) : option bytes :=
  (if c <? 128 then Some [c]
   else if c <? 2048 then Some [192 + c / 64; 128 + c mod 64]
   else if (55296 <=? c) && (c <=? 57343) then None
   else if c <? 65536 then
     Some [224 + c / 4096; 128 + (c / 64) mod 64; 128 + c mod 64]
   else if c <? 1114112 then
     Some [240 + c / 262144; 128 + (c / 4096) mod 64;
           128 + (c / 64) mod 64; 128 + c mod 64]
   else None)%N.

(** [s.encode()]: [None] stands for [UnicodeEncodeError] (a lone surrogate). *)
Fixpoint encode (s : str) : option bytes :=
  match s with
  | [] => Some []
  | c :: t =>
      match encode_char c, encode t with
      | Some b, Some bs => Some (b ++ bs)
      | _, _ => None
      end
  end.

Definition between (lo hi b : N) : bool := ((lo <=? b) && (b <=? hi))%N.
Definition cont (b : N) : bool := between 128 191 b.
Definition low6 (b : N) : N := (b mod 64)%N.

(** [b.decode()]: strict UTF-8, [None] stands for [UnicodeDecodeError]
    (stray continuation byte, truncated or overlong sequence, surrogate,
    code point above U+10FFFF). *)
Fixpoint decode (bs : bytes) : option str :=
  match bs with
  | [] => Some []
  | b :: t =>
      if (b <? 128)%N then option_map (cons b) (decode t)
      else if between 194 223 b then
        match t with
        | c1 :: t1 =>
            if cont c1
            then option_map (cons ((b mod 32) * 64 + low6 c1)%N) (decode t1)
            else None
        | _ => None
        end
      else if between 224 239 b then
        match t with
        | c1 :: c2 :: t2 =>
            if between (if (b =? 224)%N then 160 else 128)
                       (if (b =? 237)%N then 159 else 191) c1 && cont c2
            then option_map
                   (cons ((b mod 16) * 4096 + low6 c1 * 64 + low6 c2)%N)
                   (decode t2)
            else None
        | _ => None
        end
      else if between 240 244 b then
        match t with
        | c1 :: c2 :: c3 :: t3 =>
            if between (if (b =? 240)%N then 144 else 128)
                       (if (b =? 244)%N then 143 else 191) c1
               && cont c2 && cont c3
            then option_map
                   (cons ((b mod 8) * 262144 + low6 c1 * 4096
                          + low6 c2 * 64 + low6 c3)%N)
                   (decode t3)
            else None
        | _ => None
        end
      else None
  end.

Definition mem (c : N) (chars : str) : bool := existsb (N.eqb c) chars.

Fixpoint lstrip (chars s : str) : str :=
  match s with
  | [] => []
  | c :: t => if mem c chars then lstrip chars t else s
  end.

Definition rstrip (chars s : str) : str := rev (lstrip chars (rev s)).

(** [s.strip(chars)]: drop the characters of [chars] from both ends. *)
Definition strip (chars s : str) : str := rstrip chars (lstrip chars s).

(** The argument of [strip] in [read_response]: ['> \r\n']. *)
Definition delimiters : str := lit "> " ++ [CR; LF].

(** ** Exceptions *)

Inductive exn :=
| ValueError (msg : string)
| TypeError (msg : string)
| OverflowError
| AttributeError
| UnicodeDecodeError
| UnicodeEncodeError
| OSError
| TimeoutError
| BlockingIOError.

(** [socket.error] is [OSError]; [socket.timeout] and [BlockingIOError] are
    subclasses of it. *)
Definition is_socket_error (e : exn) : bool :=
  match e with
  | OSError | TimeoutError | BlockingIOError => true
  | _ => false
  end.

Definition is_socket_timeout (e : exn) : bool :=
  match e with
  | TimeoutError => true
  | _ => false
  end.

(** ** The socket and its peer *)

(** What one call of [recv] meets.  [Data bs]: these bytes are there, of
    which the call returns at most [bufsize] (what it leaves behind is for
    the oracle to offer again); no bytes at all means the peer has closed.
    [Silence]: nothing arrives while the call waits.  [Failure]: the
    transport fails, a connection reset for one. *)
Inductive recv_outcome :=
| Data (bs : bytes)
| Silence
| Failure.

(** The trace records the calls that completed: [Sent bs], a call of
    [sendall] returned, so all of [bs] has gone out; [Slept ms], a call of
    [sleep] returned; [Closed], an open socket was closed.  A call that
    raised leaves no event. *)
Inductive event :=
| Sent (bs : bytes)
| Slept (ms : Z)
| Closed.

Record world := mkWorld {
  sock_timeout : option Z;
  sock_closed : bool;
  rx : nat -> recv_outcome;
  rx_pos : nat;
  tx : nat -> bool;
  tx_pos : nat;
  trace : list event;
  printed : nat
}.

Inductive handle := Sock (fd : nat).

Record client := mkClient {
  ip_address : string;
  port : Z;
  limit_left : Z;
  limit_right : option Z;
  speed : Z;
  acceleration : Z;
  socket : option handle;
  last_response : str
}.

Record machine := mkMachine {
  self : client;
  net : world
}.

(** ** Computations *)

Inductive outcome (A : Type) :=
| Ret (a : A) (st : machine)
| Raise (e : exn) (st : machine).
Arguments Ret {A} a st.
Arguments Raise {A} e st.

Definition M (A : Type) := machine -> option (outcome A).

Definition ret {A} (a : A) : M A := fun st => Some (Ret a st).
Definition raise {A} (e : exn) : M A := fun st => Some (Raise e st).

Definition bind {A B} (m : M A) (k : A -> M B) : M B :=
  fun st =>
    match m st with
    | None => None
    | Some (Raise e st') => Some (Raise e st')
    | Some (Ret a st') => k a st'
    end.

Notation "x <- m ;; k" := (bind m (fun x => k))
  (at level 61, m at next level, right associativity).
Notation "m ;; k" := (bind m (fun _ => k))
  (at level 61, right associativity).

(** [try: body except E: handler], [catches] deciding [isinstance(e, E)]. *)
Definition try_except {A} (body : M A) (catches : exn -> bool)
    (handler : exn -> M A) : M A :=
  fun st =>
    match body st with
    | Some (Raise e st') =>
        if catches e then handler e st' else Some (Raise e st')
    | r => r
    end.

(** [try: body finally: fin]: [fin] runs on every exit of [body]; what
    [body] returned or raised stands unless [fin] raises itself. *)
Definition try_finally {A} (body : M A) (fin : M unit) : M A :=
  fun st =>
    match body st with
    | None => None
    | Some (Ret a st') =>
        match fin st' with
        | None => None
        | Some (Ret _ st'') => Some (Ret a st'')
        | Some (Raise e st'') => Some (Raise e st'')
        end
    | Some (Raise e st') =>
        match fin st' with
        | None => None
        | Some (Ret _ st'') => Some (Raise e st'')
        | Some (Raise e' st'') => Some (Raise e' st'')
        end
    end.

Definition set_net (w : world) (st : machine) : machine :=
  mkMachine (self st) w.
Definition set_self (c : client) (st : machine) : machine :=
  mkMachine c (net st).

(** Every [self.socket.f(...)] first reads the attribute: on [None] the
    method lookup raises [AttributeError]. *)
Definition with_socket {A} (m : M A) : M A :=
  fun st =>
    match socket (self st) with
    | None => Some (Raise AttributeError st)
    | Some _ => m st
    end.

Definition set_timeout (t : option Z) (w : world) : world :=
  mkWorld t (sock_closed w) (rx w) (rx_pos w) (tx w) (tx_pos w)
          (trace w) (printed w).

Definition log (e : event) (w : world) : world :=
  mkWorld (sock_timeout w) (sock_closed w) (rx w) (rx_pos w) (tx w)
          (tx_pos w) (trace w ++ [e]) (printed w).

Definition next_rx (w : world) : world :=
  mkWorld (sock_timeout w) (sock_closed w) (rx w) (S (rx_pos w)) (tx w)
          (tx_pos w) (trace w) (printed w).

Definition next_tx (w : world) : world :=
  mkWorld (sock_timeout w) (sock_closed w) (rx w) (rx_pos w) (tx w)
          (S (tx_pos w)) (trace w) (printed w).

Definition mark_closed (w : world) : world :=
  mkWorld (sock_timeout w) true (rx w) (rx_pos w) (tx w) (tx_pos w)
          (trace w) (printed w).

Definition count_print (w : world) : world :=
  mkWorld (sock_timeout w) (sock_closed w) (rx w) (rx_pos w) (tx w)
          (tx_pos w) (trace w) (S (printed w)).

(** [socket.getblocking()]: false exactly when the timeout is zero; it
    reads the object and works on a closed socket too. *)
Definition getblocking : M bool :=
  with_socket (fun st =>
    Some (Ret (match sock_timeout (net st) with
               | Some 0 => false
               | _ => true
               end) st)).

(** [socket.settimeout(t)]: the object records [t], then the descriptor is
    switched, which fails with [OSError] on a closed socket. *)
Definition settimeout (t : option Z) : M unit :=
  with_socket (fun st =>
    let st' := set_net (set_timeout t (net st)) st in
    if sock_closed (net st) then Some (Raise OSError st')
    else Some (Ret tt st')).

(** [socket.setblocking(flag)] is [settimeout(None)] for a true flag and
    [settimeout(0.0)] for a false one. *)
Definition setblocking (flag : bool) : M unit :=
  settimeout (if flag then None else Some 0).

(** [socket.recv(bufsize)]: one call, one entry of the oracle. *)
Definition recv (bufsize : nat) : M bytes :=
  with_socket (fun st =>
    let w := net st in
    if sock_closed w then Some (Raise OSError st)
    else
      let st' := set_net (next_rx w) st in
      match rx w (rx_pos w) with
      | Data bs => Some (Ret (firstn bufsize bs) st')
      | Failure => Some (Raise OSError st')
      | Silence =>
          match sock_timeout w with
          | None => None
          | Some 0 => Some (Raise BlockingIOError st')
          | Some _ => Some (Raise TimeoutError st')
          end
      end).

(** [socket.sendall(data)]: the call returns once all of [data] has gone
    out, or it raises [OSError].  By then a part of [data] may have gone
    out already; how much is not known to the caller and the trace, which
    records completed calls, does not show it. *)
Definition sendall (data : bytes) : M unit :=
  with_socket (fun st =>
    let w := net st in
    if sock_closed w then Some (Raise OSError st)
    else if tx w (tx_pos w)
    then Some (Ret tt (set_net (log (Sent data) (next_tx w)) st))
    else Some (Raise OSError (set_net (next_tx w) st))).

(** [socket.close()]: closing a closed socket does nothing. *)
Definition close : M unit :=
  with_socket (fun st =>
    let w := net st in
    if sock_closed w then Some (Ret tt st)
    else Some (Ret tt (set_net (log Closed (mark_closed w)) st))).

(** [time.sleep(seconds)], in milliseconds. *)
Definition sleep (ms : Z) : M unit :=
  fun st => Some (Ret tt (set_net (log (Slept ms) (net st)) st)).

(** [print(...)] of the diagnostic line. *)
Definition print_line : M unit :=
  fun st => Some (Ret tt (set_net (count_print (net st)) st)).

(** ** The class [XenaxController] *)

Definition attr {A} (f : client -> A) : M A :=
  fun st => Some (Ret (f (self st)) st).

Definition with_ip_address (v : string) (c : client) : client :=
  mkClient v (port c) (limit_left c) (limit_right c) (speed c)
           (acceleration c) (socket c) (last_response c).

Definition with_port (v : Z) (c : client) : client :=
  mkClient (ip_address c) v (limit_left c) (limit_right c) (speed c)
           (acceleration c) (socket c) (last_response c).

Definition with_limit_left (v : Z) (c : client) : client :=
  mkClient (ip_address c) (port c) v (limit_right c) (speed c)
           (acceleration c) (socket c) (last_response c).

Definition with_limit_right (v : option Z) (c : client) : client :=
  mkClient (ip_address c) (port c) (limit_left c) v (speed c)
           (acceleration c) (socket c) (last_response c).

Definition with_speed (v : Z) (c : client) : client :=
  mkClient (ip_address c) (port c) (limit_left c) (limit_right c) v
           (acceleration c) (socket c) (last_response c).

Definition with_acceleration (v : Z) (c : client) : client :=
  mkClient (ip_address c) (port c) (limit_left c) (limit_right c) (speed c)
           v (socket c) (last_response c).

Definition with_socket_attr (h : option handle) (c : client) : client :=
  mkClient (ip_address c) (port c) (limit_left c) (limit_right c) (speed c)
           (acceleration c) h (last_response c).

Definition with_last_response (r : str) (c : client) : client :=
  mkClient (ip_address c) (port c) (limit_left c) (limit_right c) (speed c)
           (acceleration c) (socket c) r.

Definition assign (f : client -> client) : M unit :=
  fun st => Some (Ret tt (set_self (f (self st)) st)).

(** The [while True] loop of [clear_buffer]; [fuel] bounds its rounds. *)
Fixpoint clear_buffer_loop (fuel : nat) : M unit :=
  match fuel with
  | O => fun _ => None
  | S k =>
      data <- recv 1024 ;;
      match data with
      | [] => ret tt
      | _ :: _ => clear_buffer_loop k
      end
  end.

Definition clear_buffer (fuel : nat) : M unit :=
  settimeout (Some 100) ;;
  try_finally
    (try_except (clear_buffer_loop fuel) is_socket_timeout (fun _ => ret tt))
    (settimeout None).

Definition read_response : M str :=
  try_except
    (response_bytes <- recv 1024 ;;
     match decode response_bytes with
     | None => raise UnicodeDecodeError
     | Some s => ret (strip delimiters s)
     end)
    is_socket_error
    (fun _ => print_line ;; ret []).

Definition send_command (fuel : nat) (command : str) : M unit :=
  original_blocking_mode <- getblocking ;;
  setblocking true ;;
  clear_buffer fuel ;;
  let full_command := command ++ [CR] in
  match encode full_command with
  | None => raise UnicodeEncodeError
  | Some payload =>
      sendall payload ;;
      r <- read_response ;;
      assign (with_last_response r) ;;
      setblocking original_blocking_mode
  end.

Definition response : M str := attr last_response.

Definition set_speed (fuel : nat) (value : Z) (during_init : bool) : M unit :=
  if (50 <=? value) && (value <=? 10000000) then
    assign (with_speed value) ;;
    if negb during_init
    then send_command fuel (lit "SP" ++ str_of_int value)
    else ret tt
  else raise (ValueError "Speed value out of range").

Definition get_speed : M Z := attr speed.

Definition set_acceleration (fuel : nat) (value : Z) (during_init : bool)
    : M unit :=
  if (100000 <=? value) && (value <=? 10000000) then
    assign (with_acceleration value) ;;
    if negb during_init
    then send_command fuel (lit "AC" ++ str_of_int value)
    else ret tt
  else raise (ValueError "Acceleration value out of range").

Definition get_acceleration : M Z := attr acceleration.

(** The values a caller can hand to [set_position]: [bool] is a subclass
    of [int]; any other object fails both [isinstance] tests as [PStr] and
    [PNone] do. *)
Inductive pyval :=
| PInt (z : Z)
| PBool (b : bool)
| PFloat (f : spec_float)
| PStr (s : str)
| PNone.

(** [int(x)] for a float: the value [m * 2^e] cut towards zero. *)
Definition int_of_float (f : spec_float) : exn + Z :=
  match f with
  | S754_zero _ => inr 0
  | S754_infinity _ => inl OverflowError
  | S754_nan => inl (ValueError "cannot convert float NaN to integer")
  | S754_finite s m e =>
      let a := Z.shiftl (Z.pos m) e in
      inr (if s then - a else a)
  end.

(** The integer an [int] or a [bool] compares as, and how an f-string
    prints it. *)
Definition int_value (v : pyval) : Z :=
  match v with
  | PInt z => z
  | PBool b => if b then 1 else 0
  | _ => 0
  end.

(** The name of the type of an [int] or a [bool], as error messages give
    it. *)
Definition type_name (v : pyval) : string :=
  match v with
  | PBool _ => "bool"
  | _ => "int"
  end.

Definition format_value (v : pyval) : str :=
  match v with
  | PInt z => str_of_int z
  | PBool b => str_of_bool b
  | _ => []
  end.

Definition set_position (fuel : nat) (value : pyval) : M unit :=
  value <-
    match value with
    | PFloat f =>
        match int_of_float f with
        | inl e => raise e
        | inr z => ret (PInt z)
        end
    | PInt _ | PBool _ => ret value
    | PStr _ | PNone => raise (TypeError "Position value must be an integer")
    end ;;
  l <- attr limit_left ;;
  r <- attr limit_right ;;
  if l <=? int_value value then
    match r with
    | None =>
        raise (TypeError
          ("'<=' not supported between instances of '"
           ++ type_name value ++ "' and 'NoneType'"))
    | Some r =>
        if int_value value <=? r
        then send_command fuel (lit "G" ++ format_value value)
        else raise (ValueError "Position out of limits")
    end
  else raise (ValueError "Position out of limits").

Definition get_position (fuel : nat) : M str :=
  send_command fuel (lit "TP") ;;
  response.

Definition jog_positive (fuel : nat) : M unit := send_command fuel (lit "JP").
Definition jog_negative (fuel : nat) : M unit := send_command fuel (lit "JN").
Definition power_on (fuel : nat) : M unit := send_command fuel (lit "PW").
Definition power_off (fuel : nat) : M unit := send_command fuel (lit "PQ").

Definition center_position : M Z :=
  l <- attr limit_left ;;
  r <- attr limit_right ;;
  match r with
  | None =>
      raise (TypeError "unsupported operand type(s) for +: 'int' and 'NoneType'")
  | Some r => ret ((l + r) / 2)
  end.

Definition min_position : M Z := attr limit_left.
Definition max_position : M (option Z) := attr limit_right.
Definition set_min_position (value : Z) : M unit :=
  assign (with_limit_left value).
Definition set_max_position (value : option Z) : M unit :=
  assign (with_limit_right value).

Fixpoint for_each {A} (xs : list A) (body : A -> M unit) : M unit :=
  match xs with
  | [] => ret tt
  | x :: t => body x ;; for_each t body
  end.

Definition initialize (fuel : nat) : M unit :=
  let commands := [lit "ECH0"; lit "PW"; lit "EVT1"; lit "HORM"; lit "EVT0"] in
  for_each commands (fun cmd => send_command fuel cmd ;; sleep 200) ;;
  sp <- attr speed ;;
  set_speed fuel sp false ;;
  ac <- attr acceleration ;;
  set_acceleration fuel ac false.

Definition disconnect (fuel : nat) : M unit :=
  send_command fuel (lit "PQ") ;;
  close.

(** [__init__]: the attributes in the order the constructor assigns them.
    The address and the limits come first; [speed] and [acceleration] are
    written by their setters only, after validation, so until then the
    object has what it had (nothing, when it is new). *)
Definition __init__ (ip : string) (port limit_left : Z)
    (limit_right : option Z) (speed acceleration : Z) : M unit :=
  assign (with_ip_address ip) ;;
  assign (with_port port) ;;
  assign (with_limit_left limit_left) ;;
  assign (with_limit_right limit_right) ;;
  set_speed 0 speed true ;;
  set_acceleration 0 acceleration true ;;
  assign (with_socket_attr None) ;;
  assign (with_last_response []).

(** ** What the peer lets through *)

(** A non-empty chunk keeps the loop of [clear_buffer] going. *)
Definition flows (o : recv_outcome) : bool :=
  match o with
  | Data (_ :: _) => true
  | _ => false
  end.

(** The first call of [recv], counted from [pos], that does not return a
    non-empty chunk is the [k]-th. *)
Definition stops_at (rx : nat -> recv_outcome) (pos k : nat) : Prop :=
  (forall i, (i < k)%nat -> flows (rx (pos + i)%nat) = true) /\
  flows (rx (pos + k)%nat) = false.

(** What [read_response] makes of the entry it meets on a socket without
    timeout: no value when the peer stays silent or sends bytes that are
    not UTF-8. *)
Definition answer (o : recv_outcome) : option str :=
  match o with
  | Data bs => option_map (strip delimiters) (decode (firstn 1024 bs))
  | Failure => Some []
  | Silence => None
  end.

(** The next [n] exchanges go through: each time the buffer runs dry within
    [fuel] reads without a transport failure, the command is sent and an
    answer (or a failed read) follows. *)
Fixpoint serves (fuel n : nat) (rx : nat -> recv_outcome) (pos : nat)
    (tx : nat -> bool) (tpos : nat) : Prop :=
  match n with
  | O => True
  | S n' =>
      tx tpos = true /\
      exists k, (k < fuel)%nat /\ stops_at rx pos k /\
                rx (pos + k)%nat <> Failure /\
                answer (rx (pos + S k)%nat) <> None /\
                serves fuel n' rx (pos + S (S k))%nat tx (S tpos)
  end.

Definition blocking (w : world) : bool :=
  match sock_timeout w with
  | Some 0 => false
  | _ => true
  end.

Definition skip_rx (n : nat) (w : world) : world :=
  mkWorld (sock_timeout w) (sock_closed w) (rx w) (rx_pos w + n)%nat (tx w)
          (tx_pos w) (trace w) (printed w).

Definition final {A} (r : outcome A) : machine :=
  match r with
  | Ret _ st => st
  | Raise _ st => st
  end.

(** The attributes other than [last_response] agree. *)
Definition same_settings (c c' : client) : Prop :=
  ip_address c' = ip_address c /\ port c' = port c /\
  limit_left c' = limit_left c /\ limit_right c' = limit_right c /\
  speed c' = speed c /\ acceleration c' = acceleration c /\
  socket c' = socket c.

(** No two sends follow each other without a pause in between. *)
Fixpoint pauses_between_sends (t : list event) : bool :=
  match t with
  | Sent _ :: ((Sent _ :: _) as t') => false
  | _ :: t' => pauses_between_sends t'
  | [] => true
  end.

(** How many times the socket was closed. *)
Fixpoint closes (t : list event) : nat :=
  match t with
  | [] => 0
  | Closed :: t' => S (closes t')
  | _ :: t' => closes t'
  end.

Definition ascii_only (s : str) : Prop := Forall (fun c => (c < 128)%N) s.

(** A peer that has nothing pending and answers every command with
    [reply]. *)
Definition polite (reply : bytes) (n : nat) : recv_outcome :=
  if Nat.even n then Silence else Data reply.

(** A peer that never stops sending. *)
Definition chatty (n : nat) : recv_outcome := Data (lit "x").

(** A peer with nothing pending whose connection breaks before it
    answers. *)
Definition broken_read (n : nat) : recv_outcome :=
  match n with
  | O => Silence
  | S _ => Failure
  end.

(** A peer with two stale chunks pending, quiet afterwards. *)
Definition stale_then_quiet (n : nat) : recv_outcome :=
  match n with
  | O => Data (lit "> 12")
  | S O => Data (lit "34")
  | _ => Silence
  end.

Definition always (b : bool) (n : nat) : bool := b.

Definition rail : client :=
  mkClient "192.168.2.100" 10001 0 (Some 10000) 100000 1000000
           (Some (Sock 3)) [].

Definition fresh_link (rx : nat -> recv_outcome) (tx : nat -> bool)
    (timeout : option Z) : world :=
  mkWorld timeout false rx 0 tx 0 [] 0.

(** The machine after a completed exchange that found the buffer dry at
    the [k]-th read, sent [payload] and decoded the answer [r]. *)
Definition exchanged (k : nat) (payload : bytes) (r : str) (c : client)
    (w : world) : machine :=
  mkMachine (with_last_response r c)
    (mkWorld (if blocking w then None else Some 0) (sock_closed w) (rx w)
             (rx_pos w + S (S k))%nat (tx w) (S (tx_pos w))
             (trace w ++ [Sent payload])
             (match rx w (rx_pos w + S k)%nat with
              | Failure => S (printed w)
              | _ => printed w
              end)).

(** A computation that leaves every attribute but [last_response] as it
    found it, however it ends. *)
Definition keeps {A} (m : M A) : Prop :=
  forall st r, m st = Some r -> same_settings (self st) (self (final r)).

(** ** Opening the connection *)

(** What [socket.connect] meets: the connection is refused (or the host
    is not reached), or it is set up and the peer behaves as [rx] and [tx]
    say. *)
Inductive connect_outcome :=
| Refused
| Accepted (rx : nat -> recv_outcome) (tx : nat -> bool).

(** A socket that is not connected fails every read and every send. *)
Definition no_peer_rx (n : nat) : recv_outcome := Failure.
Definition no_peer_tx (n : nat) : bool := false.

(** [self.socket = socket.socket(AF_INET, SOCK_STREAM)]: a new socket
    object, open, not connected, without timeout (the default of the
    module); the attribute now names it. *)
Definition new_socket (fd : nat) : M unit :=
  fun st =>
    Some (Ret tt
      (mkMachine (with_socket_attr (Some (Sock fd)) (self st))
         (mkWorld None false no_peer_rx 0 no_peer_tx 0
                  (trace (net st)) (printed (net st))))).

(** [self.socket.connect((self.ip_address, self.port))]: the failures of
    [connect] are subclasses of [OSError]. *)
Definition socket_connect (o : connect_outcome) : M unit :=
  with_socket (fun st =>
    let w := net st in
    if sock_closed w then Some (Raise OSError st)
    else
      match o with
      | Refused => Some (Raise OSError st)
      | Accepted rx' tx' =>
          Some (Ret tt
            (set_net (mkWorld (sock_timeout w) (sock_closed w) rx' 0 tx' 0
                              (trace w) (printed w)) st))
      end).

Definition connect (fuel : nat) (fd : nat) (o : connect_outcome) : M unit :=
  new_socket fd ;;
  socket_connect o ;;
  initialize fuel.

(** ** Notions for the further properties *)

(** Speed and acceleration are within the ranges of their setters. *)
Definition in_ranges (c : client) : Prop :=
  50 <= speed c <= 10000000 /\ 100000 <= acceleration c <= 10000000.

(** If speed and acceleration were in their ranges before, they are
    after. *)
Definition ranges_kept (st st' : machine) : Prop :=
  in_ranges (self st) -> in_ranges (self st').

(** A computation whose final state, however it ends, is related to its
    initial state by [R]. *)
Definition preserves (R : machine -> machine -> Prop) {A} (m : M A) : Prop :=
  forall st r, m st = Some r -> R st (final r).

(** The observation [f] of the machine has not changed. *)
Definition unchanged {X} (f : machine -> X) (st st' : machine) : Prop :=
  f st' = f st.

(** The completed sends and the number of calls of [sendall] so far. *)
Definition send_record (st : machine) : list event * nat :=
  (trace (net st), tx_pos (net st)).

(** The socket attribute and whether the socket is closed. *)
Definition liveness (st : machine) : option handle * bool :=
  (socket (self st), sock_closed (net st)).

(** The link serves [n] exchanges; at the next one the buffer runs dry
    once more and the send fails. *)
Fixpoint serves_then_fails (fuel n : nat) (rx : nat -> recv_outcome)
    (pos : nat) (tx : nat -> bool) (tpos : nat) : Prop :=
  match n with
  | O =>
      tx tpos = false /\
      exists k, (k < fuel)%nat /\ stops_at rx pos k /\
                rx (pos + k)%nat <> Failure
  | S n' =>
      tx tpos = true /\
      exists k, (k < fuel)%nat /\ stops_at rx pos k /\
                rx (pos + k)%nat <> Failure /\
                answer (rx (pos + S k)%nat) <> None /\
                serves_then_fails fuel n' rx (pos + S (S k))%nat tx (S tpos)
  end.

(** What a run of the loop of [initialize] over [cmds] puts in the trace
    when every round goes through. *)
Definition rounds (cmds : list str) : list event :=
  flat_map (fun cmd => [Sent (cmd ++ [CR]); Slept 200]) cmds.

(** The list [commands] of [initialize]. *)
Definition setup_commands : list str :=
  [lit "ECH0"; lit "PW"; lit "EVT1"; lit "HORM"; lit "EVT0"].

(** The events of a complete [initialize] with stored speed [sp] and
    acceleration [ac]. *)
Definition initialize_events (sp ac : Z) : list event :=
  rounds setup_commands
  ++ [Sent ((lit "SP" ++ str_of_int sp) ++ [CR]);
      Sent ((lit "AC" ++ str_of_int ac) ++ [CR])].

(** A link on which the [n]-th send is the first to fail. *)
Definition fails_at (n : nat) (i : nat) : bool := (i <? n)%nat.

(** A peer that stays silent for good. *)
Definition mute (n : nat) : recv_outcome := Silence.

(** A peer whose first answer comes in two chunks, the second of which is
    still on its way when the first is read. *)
Definition split_answer (n : nat) : recv_outcome :=
  match n with
  | 0%nat => Silence
  | 1%nat => Data (lit "> 12")
  | 2%nat => Data (lit "34" ++ [CR; LF])
  | 3%nat => Silence
  | 4%nat => Data (lit "> 99" ++ [CR; LF])
  | _ => Silence
  end.

(** The socket of [fresh_link] after [close]. *)
Definition closed_link (rx : nat -> recv_outcome) (tx : nat -> bool)
    (timeout : option Z) : world :=
  mkWorld timeout true rx 0 tx 0 [] 0.

(** A client that was never connected. *)
Definition offline : client := with_socket_attr None rail.

(** * Properties *)

#[local] Arguments firstn : simpl never.

(** ** Text *)

Lemma encode_ascii (s : str) : ascii_only s -> encode s = Some s.
Proof.
  induction 1 as [|c t Hc _ IH]; simpl.
  - reflexivity.
  - rewrite IH. unfold encode_char.
    apply N.ltb_lt in Hc. rewrite Hc. reflexivity.
Qed.

Lemma ascii_only_app (s t : str) :
  ascii_only s -> ascii_only t -> ascii_only (s ++ t).
Proof. intros Hs Ht. apply Forall_app. split; assumption. Qed.

Lemma string_of_uint_ascii (d : Decimal.uint) :
  ascii_only (lit (NilEmpty.string_of_uint d)).
Proof.
  induction d; simpl; try (constructor; [reflexivity | assumption]).
  constructor.
Qed.

Lemma str_of_int_ascii (z : Z) : ascii_only (str_of_int z).
Proof.
  unfold str_of_int, NilZero.string_of_int, NilZero.string_of_uint.
  destruct (Z.to_int z) as [d | d]; destruct d;
    try (repeat constructor; fail);
    try apply (string_of_uint_ascii (_ _));
    try (constructor; [reflexivity | apply (string_of_uint_ascii (_ _))]).
Qed.

Lemma encode_command (prefix : string) (z : Z) :
  ascii_only (lit prefix) ->
  encode ((lit prefix ++ str_of_int z) ++ [CR])
  = Some ((lit prefix ++ str_of_int z) ++ [CR]).
Proof.
  intros Hp. apply encode_ascii.
  repeat apply ascii_only_app; auto using str_of_int_ascii.
  repeat constructor.
Qed.

Lemma lstrip_split (chars s : str) :
  exists pre, s = pre ++ lstrip chars s /\
              Forall (fun c => mem c chars = true) pre.
Proof.
  induction s as [|c t [pre [E F]]]; simpl.
  - exists []. split; [reflexivity | constructor].
  - destruct (mem c chars) eqn:Hc.
    + exists (c :: pre). split.
      * simpl. f_equal. exact E.
      * constructor; assumption.
    + exists []. split; [reflexivity | constructor].
Qed.

Lemma lstrip_head (chars s : str) (c : N) (t : str) :
  lstrip chars s = c :: t -> mem c chars = false.
Proof.
  induction s as [|a s IH]; simpl; [discriminate|].
  destruct (mem a chars) eqn:Ha; [exact IH|].
  intros [= <- _]. exact Ha.
Qed.

Lemma lstrip_snoc (chars s : str) (c : N) :
  mem c chars = false -> lstrip chars (s ++ [c]) = lstrip chars s ++ [c].
Proof.
  intros Hc. induction s as [|a s IH]; simpl.
  - rewrite Hc. reflexivity.
  - destruct (mem a chars); [exact IH | reflexivity].
Qed.

Lemma rstrip_split (chars s : str) :
  exists post, s = rstrip chars s ++ post /\
               Forall (fun c => mem c chars = true) post.
Proof.
  unfold rstrip. destruct (lstrip_split chars (rev s)) as [pre [E F]].
  exists (rev pre). split.
  - rewrite <- rev_app_distr, <- E, rev_involutive. reflexivity.
  - apply Forall_rev. exact F.
Qed.

Lemma rstrip_last (chars s t : str) (c : N) :
  rstrip chars s = t ++ [c] -> mem c chars = false.
Proof.
  unfold rstrip. intros E.
  apply (f_equal (@rev N)) in E.
  rewrite rev_involutive, rev_app_distr in E. simpl in E.
  exact (lstrip_head _ _ _ _ E).
Qed.

Lemma rstrip_cons (chars t : str) (c : N) :
  mem c chars = false ->
  rstrip chars (c :: t) = c :: rstrip chars t.
Proof.
  intros Hc. unfold rstrip. simpl.
  rewrite (lstrip_snoc _ _ _ Hc), rev_app_distr. reflexivity.
Qed.

(** [strip] removes a run of delimiters at each end and leaves a text that
    neither starts nor ends with one. *)
Lemma strip_spec (chars s : str) :
  exists pre post,
    s = pre ++ strip chars s ++ post /\
    Forall (fun c => mem c chars = true) pre /\
    Forall (fun c => mem c chars = true) post /\
    (forall c t, strip chars s = c :: t -> mem c chars = false) /\
    (forall t c, strip chars s = t ++ [c] -> mem c chars = false).
Proof.
  unfold strip.
  destruct (lstrip_split chars s) as [pre [E F]].
  destruct (rstrip_split chars (lstrip chars s)) as [post [E' F']].
  exists pre, post. repeat split; try assumption.
  - rewrite <- E'. exact E.
  - intros c t H. destruct (lstrip chars s) as [|a u] eqn:L.
    + discriminate H.
    + pose proof (lstrip_head _ _ _ _ L) as Ha.
      rewrite (rstrip_cons _ _ _ Ha) in H.
      injection H as <- _. exact Ha.
  - intros t c H. exact (rstrip_last _ _ _ _ H).
Qed.

(** ** The drain loop *)

Lemma stops_at_next (rx : nat -> recv_outcome) (pos k : nat) :
  stops_at rx pos (S k) -> stops_at rx (S pos) k.
Proof.
  intros [Hlt Hk]. split.
  - intros i Hi. replace (S pos + i)%nat with (pos + S i)%nat by lia.
    apply Hlt. lia.
  - replace (S pos + k)%nat with (pos + S k)%nat by lia. exact Hk.
Qed.

Lemma recv_chunk (h : handle) (c : client) (w : world) (b : N) (bs : bytes) :
  socket c = Some h -> sock_closed w = false ->
  rx w (rx_pos w) = Data (b :: bs) ->
  recv 1024 (mkMachine c w)
  = Some (Ret (b :: firstn 1023 bs) (mkMachine c (skip_rx 1 w))).
Proof.
  intros Hs Hc Hrx. unfold recv, with_socket. simpl.
  rewrite Hs, Hc, Hrx. unfold set_net, next_rx, skip_rx. simpl.
  change (firstn 1024 (b :: bs)) with (b :: firstn 1023 bs).
  rewrite Nat.add_1_r. reflexivity.
Qed.

Lemma skip_rx_skip_rx (n m : nat) (w : world) :
  skip_rx n (skip_rx m w) = skip_rx (m + n) w.
Proof. unfold skip_rx. simpl. rewrite Nat.add_assoc. reflexivity. Qed.

(** With a timeout set, the loop ends at the first entry that is not a
    non-empty chunk: normally on an empty read, by [TimeoutError] on
    silence, by [OSError] on a failure. *)
Lemma clear_buffer_loop_stops (h : handle) (c : client) (k : nat) :
  forall (fuel : nat) (w : world) (t : Z),
    socket c = Some h -> sock_closed w = false ->
    sock_timeout w = Some t -> t <> 0 ->
    stops_at (rx w) (rx_pos w) k -> (k < fuel)%nat ->
    clear_buffer_loop fuel (mkMachine c w)
    = Some (match rx w (rx_pos w + k)%nat with
            | Data _ => Ret tt (mkMachine c (skip_rx (S k) w))
            | Silence => Raise TimeoutError (mkMachine c (skip_rx (S k) w))
            | Failure => Raise OSError (mkMachine c (skip_rx (S k) w))
            end).
Proof.
  induction k as [|k IH]; intros fuel w t Hs Hc Ht Ht0 Hstop Hfuel;
    (destruct fuel as [|fuel]; [lia|]); simpl.
  - destruct Hstop as [_ Hk]. rewrite Nat.add_0_r in Hk |- *.
    unfold bind, recv, with_socket. simpl. rewrite Hs, Hc.
    unfold set_net, next_rx, skip_rx. simpl. rewrite Nat.add_1_r.
    destruct (rx w (rx_pos w)) as [[|b bs]| |]; simpl in *.
    + reflexivity.
    + discriminate Hk.
    + rewrite Ht. destruct t; [contradiction | reflexivity | reflexivity].
    + reflexivity.
  - pose proof (proj1 Hstop 0%nat ltac:(lia)) as H0.
    rewrite Nat.add_0_r in H0.
    destruct (rx w (rx_pos w)) as [[|b bs]| |] eqn:Hrx; try discriminate H0.
    unfold bind at 1. rewrite (recv_chunk h c w b bs Hs Hc Hrx).
    cbv beta iota.
    rewrite (IH fuel (skip_rx 1 w) t); try assumption; try lia.
    + rewrite skip_rx_skip_rx. simpl.
      replace (rx_pos w + 1 + k)%nat with (rx_pos w + S k)%nat by lia.
      reflexivity.
    + simpl. rewrite Nat.add_1_r. apply stops_at_next. exact Hstop.
Qed.

(** While non-empty chunks keep coming the loop has not ended, whatever the
    fuel. *)
Lemma clear_buffer_loop_flows (h : handle) (c : client) (fuel : nat) :
  forall (w : world),
    socket c = Some h -> sock_closed w = false ->
    (forall i, flows (rx w (rx_pos w + i)%nat) = true) ->
    clear_buffer_loop fuel (mkMachine c w) = None.
Proof.
  induction fuel as [|fuel IH]; intros w Hs Hc Hall; simpl.
  - reflexivity.
  - pose proof (Hall 0%nat) as H0. rewrite Nat.add_0_r in H0.
    destruct (rx w (rx_pos w)) as [[|b bs]| |] eqn:Hrx; try discriminate H0.
    unfold bind at 1. rewrite (recv_chunk h c w b bs Hs Hc Hrx).
    cbv beta iota.
    apply IH; try assumption.
    intros i. simpl.
    replace (rx_pos w + 1 + i)%nat with (rx_pos w + S i)%nat by lia.
    apply Hall.
Qed.

(** [clear_buffer] on an open socket: the reads up to the first stop are
    consumed and the socket is left without timeout, on the normal exits
    (empty read, timeout) and on the exceptional one (transport failure). *)
Lemma clear_buffer_stops (h : handle) (c : client) (w : world)
    (fuel k : nat) :
  socket c = Some h -> sock_closed w = false ->
  stops_at (rx w) (rx_pos w) k -> (k < fuel)%nat ->
  clear_buffer fuel (mkMachine c w)
  = Some (match rx w (rx_pos w + k)%nat with
          | Failure =>
              Raise OSError (mkMachine c (set_timeout None (skip_rx (S k) w)))
          | _ => Ret tt (mkMachine c (set_timeout None (skip_rx (S k) w)))
          end).
Proof.
  intros Hs Hc Hstop Hfuel.
  unfold clear_buffer, bind at 1, settimeout at 1, with_socket. simpl.
  rewrite Hs, Hc. unfold try_finally, try_except.
  change (set_net (set_timeout (Some 100) w) (mkMachine c w))
    with (mkMachine c (set_timeout (Some 100) w)).
  rewrite (clear_buffer_loop_stops h c k fuel _ 100); simpl;
    try assumption; try lia; try reflexivity.
  destruct (rx w (rx_pos w + k)%nat); simpl;
    unfold settimeout, with_socket; simpl; rewrite Hs, Hc; reflexivity.
Qed.

(** ** One exchange *)

Lemma bind_ret_eq {A B} (m : M A) (k : A -> M B) (st st' : machine) (a : A) :
  m st = Some (Ret a st') -> bind m k st = k a st'.
Proof. intros E. unfold bind. rewrite E. reflexivity. Qed.

Lemma bind_raise_eq {A B} (m : M A) (k : A -> M B) (st st' : machine)
    (e : exn) :
  m st = Some (Raise e st') -> bind m k st = Some (Raise e st').
Proof. intros E. unfold bind. rewrite E. reflexivity. Qed.

Lemma getblocking_eq (h : handle) (c : client) (w : world) :
  socket c = Some h ->
  getblocking (mkMachine c w) = Some (Ret (blocking w) (mkMachine c w)).
Proof.
  intros Hs. unfold getblocking, with_socket, blocking. simpl.
  rewrite Hs. reflexivity.
Qed.

Lemma settimeout_eq (h : handle) (c : client) (w : world) (t : option Z) :
  socket c = Some h -> sock_closed w = false ->
  settimeout t (mkMachine c w)
  = Some (Ret tt (mkMachine c (set_timeout t w))).
Proof.
  intros Hs Hc. unfold settimeout, with_socket. simpl.
  rewrite Hs, Hc. reflexivity.
Qed.

Lemma sendall_eq (h : handle) (c : client) (w : world) (data : bytes) :
  socket c = Some h -> sock_closed w = false ->
  sendall data (mkMachine c w)
  = Some (if tx w (tx_pos w)
          then Ret tt (mkMachine c (log (Sent data) (next_tx w)))
          else Raise OSError (mkMachine c (next_tx w))).
Proof.
  intros Hs Hc. unfold sendall, with_socket. simpl.
  rewrite Hs, Hc. destruct (tx w (tx_pos w)); reflexivity.
Qed.

(** [read_response] on an open socket, by what the read meets. *)
Lemma read_response_meets (h : handle) (c : client) (w : world) :
  socket c = Some h -> sock_closed w = false ->
  read_response (mkMachine c w)
  = match rx w (rx_pos w) with
    | Data bs =>
        match decode (firstn 1024 bs) with
        | Some s => Some (Ret (strip delimiters s) (mkMachine c (next_rx w)))
        | None => Some (Raise UnicodeDecodeError (mkMachine c (next_rx w)))
        end
    | Failure => Some (Ret [] (mkMachine c (count_print (next_rx w))))
    | Silence =>
        match sock_timeout w with
        | None => None
        | Some _ => Some (Ret [] (mkMachine c (count_print (next_rx w))))
        end
    end.
Proof.
  intros Hs Hc. unfold read_response, try_except, bind, recv, with_socket.
  simpl. rewrite Hs, Hc.
  destruct (rx w (rx_pos w)) as [bs| |].
  - destruct (decode (firstn 1024 bs)); reflexivity.
  - destruct (sock_timeout w) as [[| |]|]; reflexivity.
  - reflexivity.
Qed.

(** A command whose exchange goes through: the whole effect of
    [send_command]. *)
Lemma send_command_exchange (h : handle) (c : client) (w : world)
    (fuel k : nat) (command : str) (payload : bytes) (r : str) :
  socket c = Some h -> sock_closed w = false ->
  stops_at (rx w) (rx_pos w) k -> (k < fuel)%nat ->
  rx w (rx_pos w + k)%nat <> Failure ->
  encode (command ++ [CR]) = Some payload ->
  tx w (tx_pos w) = true ->
  answer (rx w (rx_pos w + S k)%nat) = Some r ->
  send_command fuel command (mkMachine c w)
  = Some (Ret tt (exchanged k payload r c w)).
Proof.
  intros Hs Hc Hstop Hfuel Hnf Henc Htx Hans.
  unfold send_command.
  rewrite (bind_ret_eq _ _ _ _ _ (getblocking_eq h c w Hs)).
  unfold setblocking at 1.
  rewrite (bind_ret_eq _ _ _ _ _ (settimeout_eq h c w None Hs Hc)).
  assert (Hclear : clear_buffer fuel (mkMachine c (set_timeout None w))
                   = Some (Ret tt (mkMachine c
                       (set_timeout None (skip_rx (S k) w))))).
  { rewrite (clear_buffer_stops h c _ fuel k); simpl; try assumption.
    destruct (rx w (rx_pos w + k)%nat); try reflexivity. contradiction. }
  rewrite (bind_ret_eq _ _ _ _ _ Hclear). rewrite Henc.
  rewrite (bind_ret_eq _ _ _ (mkMachine c
             (log (Sent payload)
                (next_tx (set_timeout None (skip_rx (S k) w))))) tt).
  2:{ rewrite (sendall_eq h c); simpl; try assumption.
      rewrite Htx. reflexivity. }
  assert (Hread :
    read_response (mkMachine c
      (log (Sent payload) (next_tx (set_timeout None (skip_rx (S k) w)))))
    = Some (Ret r (mkMachine c
        (mkWorld None (sock_closed w) (rx w) (rx_pos w + S (S k))%nat (tx w)
           (S (tx_pos w)) (trace w ++ [Sent payload])
           (match rx w (rx_pos w + S k)%nat with
            | Failure => S (printed w)
            | _ => printed w
            end))))).
  { rewrite (read_response_meets h c); simpl; try assumption.
    unfold answer in Hans.
    unfold count_print, next_rx, log, next_tx, set_timeout, skip_rx; simpl.
    replace (S (rx_pos w + S k)) with (rx_pos w + S (S k))%nat by lia.
    destruct (rx w (rx_pos w + S k)%nat) as [bs| |].
    - destruct (decode (firstn 1024 bs)); [|discriminate Hans].
      simpl in Hans. injection Hans as <-. reflexivity.
    - discriminate Hans.
    - injection Hans as <-. reflexivity. }
  rewrite (bind_ret_eq _ _ _ _ _ Hread).
  unfold assign at 1, bind at 1. cbv beta iota.
  unfold setblocking, set_self. cbn [self net].
  rewrite (settimeout_eq h); [| exact Hs | exact Hc].
  unfold exchanged, set_timeout. simpl.
  destruct (blocking w); reflexivity.
Qed.

(** ** Frame: what a command exchange leaves alone *)

Lemma same_settings_refl (c : client) : same_settings c c.
Proof. unfold same_settings. tauto. Qed.

Lemma same_settings_trans (a b c : client) :
  same_settings a b -> same_settings b c -> same_settings a c.
Proof.
  unfold same_settings. intros H1 H2.
  decompose [and] H1. decompose [and] H2.
  repeat split; congruence.
Qed.

Lemma keeps_ret {A} (a : A) : keeps (ret a).
Proof. intros st r [= <-]. apply same_settings_refl. Qed.

Lemma keeps_raise {A} (e : exn) : keeps (@raise A e).
Proof. intros st r [= <-]. apply same_settings_refl. Qed.

Lemma keeps_bind {A B} (m : M A) (k : A -> M B) :
  keeps m -> (forall a, keeps (k a)) -> keeps (bind m k).
Proof.
  intros Hm Hk st r. unfold bind.
  destruct (m st) as [[a st1 | e st1]|] eqn:E; try discriminate.
  - intros Hr. eapply same_settings_trans.
    + exact (Hm _ _ E).
    + exact (Hk a _ _ Hr).
  - intros [= <-]. exact (Hm _ _ E).
Qed.

Lemma keeps_try_except {A} (body : M A) (catches : exn -> bool)
    (handler : exn -> M A) :
  keeps body -> (forall e, keeps (handler e)) ->
  keeps (try_except body catches handler).
Proof.
  intros Hb Hh st r. unfold try_except.
  destruct (body st) as [[a st1 | e st1]|] eqn:E; try discriminate.
  - intros [= <-]. exact (Hb _ _ E).
  - destruct (catches e).
    + intros Hr. eapply same_settings_trans.
      * exact (Hb _ _ E).
      * exact (Hh e _ _ Hr).
    + intros [= <-]. exact (Hb _ _ E).
Qed.

Lemma keeps_try_finally {A} (body : M A) (fin : M unit) :
  keeps body -> keeps fin -> keeps (try_finally body fin).
Proof.
  intros Hb Hf st r. unfold try_finally.
  destruct (body st) as [[a st1 | e st1]|] eqn:E; try discriminate;
    (destruct (fin st1) as [[u st2 | e2 st2]|] eqn:F; try discriminate);
    intros [= <-];
    exact (same_settings_trans _ _ _ (Hb _ _ E) (Hf _ _ F)).
Qed.

Lemma keeps_with_socket {A} (m : M A) : keeps m -> keeps (with_socket m).
Proof.
  intros Hm st r. unfold with_socket.
  destruct (socket (self st)).
  - apply Hm.
  - intros [= <-]. apply same_settings_refl.
Qed.

Lemma keeps_getblocking : keeps getblocking.
Proof.
  apply keeps_with_socket. intros st r [= <-]. apply same_settings_refl.
Qed.

Lemma keeps_settimeout (t : option Z) : keeps (settimeout t).
Proof.
  apply keeps_with_socket. intros st r. cbv beta zeta.
  destruct (sock_closed (net st)); intros [= <-]; apply same_settings_refl.
Qed.

Lemma keeps_recv (n : nat) : keeps (recv n).
Proof.
  apply keeps_with_socket. intros st r. cbv beta zeta.
  destruct (sock_closed (net st)).
  - intros [= <-]. apply same_settings_refl.
  - destruct (rx (net st) (rx_pos (net st))) as [bs| |].
    + intros [= <-]. apply same_settings_refl.
    + destruct (sock_timeout (net st)) as [[| |]|]; try discriminate;
        intros [= <-]; apply same_settings_refl.
    + intros [= <-]. apply same_settings_refl.
Qed.

Lemma keeps_sendall (data : bytes) : keeps (sendall data).
Proof.
  apply keeps_with_socket. intros st r. cbv beta zeta.
  destruct (sock_closed (net st)).
  - intros [= <-]. apply same_settings_refl.
  - destruct (tx (net st) (tx_pos (net st)));
      intros [= <-]; apply same_settings_refl.
Qed.

Lemma keeps_close : keeps close.
Proof.
  apply keeps_with_socket. intros st r. cbv beta zeta.
  destruct (sock_closed (net st)); intros [= <-]; apply same_settings_refl.
Qed.

Lemma keeps_sleep (ms : Z) : keeps (sleep ms).
Proof. intros st r [= <-]. apply same_settings_refl. Qed.

Lemma keeps_print_line : keeps print_line.
Proof. intros st r [= <-]. apply same_settings_refl. Qed.

Lemma keeps_attr {A} (f : client -> A) : keeps (attr f).
Proof. intros st r [= <-]. apply same_settings_refl. Qed.

Lemma keeps_last_response (r : str) : keeps (assign (with_last_response r)).
Proof. intros st o [= <-]. simpl. unfold same_settings. simpl. tauto. Qed.

Create HintDb frame.
#[local] Hint Resolve keeps_ret keeps_raise keeps_getblocking
  keeps_settimeout keeps_recv keeps_sendall keeps_close keeps_sleep
  keeps_print_line keeps_attr keeps_last_response : frame.

Ltac frame :=
  repeat first
    [ assumption
    | solve [auto with frame]
    | apply keeps_bind; [| intro]
    | apply keeps_try_except; [| intro]
    | apply keeps_try_finally ].

Lemma keeps_clear_buffer_loop (fuel : nat) : keeps (clear_buffer_loop fuel).
Proof.
  induction fuel as [|fuel IH]; simpl.
  - intros st r. discriminate.
  - apply keeps_bind; [auto with frame|].
    intros [|b bs]; [auto with frame | exact IH].
Qed.

Lemma keeps_clear_buffer (fuel : nat) : keeps (clear_buffer fuel).
Proof.
  unfold clear_buffer. pose proof (keeps_clear_buffer_loop fuel). frame.
Qed.

Lemma keeps_read_response : keeps read_response.
Proof.
  unfold read_response. frame.
  destruct (decode _); auto with frame.
Qed.

Lemma keeps_send_command (fuel : nat) (command : str) :
  keeps (send_command fuel command).
Proof.
  unfold send_command, setblocking.
  pose proof (keeps_clear_buffer fuel). pose proof keeps_read_response.
  frame. cbv zeta. destruct (encode (command ++ [CR])); frame.
Qed.

(** ** Derived position *)

(** C9: [center_position] is the floor division of
    [limit_left + limit_right] by two: twice the result is at most the sum
    and less than the sum plus two.  With limits 0 and 10000 it is 5000, and
    with limits 1 and 10000 it is 5000 again: the half is dropped, not
    rounded up. *)
Theorem center_position_floor (st : machine) (r : Z) :
  limit_right (self st) = Some r ->
  center_position st = Some (Ret ((limit_left (self st) + r) / 2) st) /\
  2 * ((limit_left (self st) + r) / 2) <= limit_left (self st) + r
    < 2 * ((limit_left (self st) + r) / 2) + 2 /\
  (limit_left (self st) = 0 -> r = 10000 ->
   center_position st = Some (Ret 5000 st)) /\
  (limit_left (self st) = 1 -> r = 10000 ->
   center_position st = Some (Ret 5000 st)).
Proof.
  intros Hr.
  assert (E : center_position st
              = Some (Ret ((limit_left (self st) + r) / 2) st)).
  { unfold center_position, bind, attr. rewrite Hr. reflexivity. }
  repeat split.
  - exact E.
  - pose proof (Z.mul_div_le (limit_left (self st) + r) 2). lia.
  - pose proof (Z.mul_succ_div_gt (limit_left (self st) + r) 2). lia.
  - intros Hl ->. rewrite E, Hl. reflexivity.
  - intros Hl ->. rewrite E, Hl. reflexivity.
Qed.

Lemma center_position_floor_witness :
  limit_right
    (self (mkMachine (with_limit_left 1 rail)
                     (fresh_link (polite []) (always true) None)))
  = Some 10000 /\
  center_position
    (mkMachine (with_limit_left 1 rail)
               (fresh_link (polite []) (always true) None))
  = Some (Ret 5000
            (mkMachine (with_limit_left 1 rail)
                       (fresh_link (polite []) (always true) None))).
Proof.
  split; [reflexivity|].
  apply (center_position_floor
           (mkMachine (with_limit_left 1 rail)
                      (fresh_link (polite []) (always true) None)) 10000);
    reflexivity.
Defined.

(** ** Decoding the answer *)

Lemma mem_delimiters (c : N) :
  mem c delimiters = true <->
  (c = 62 \/ c = 32 \/ c = 13 \/ c = 10)%N.
Proof.
  unfold mem, delimiters. simpl.
  rewrite !orb_true_iff, !N.eqb_eq. intuition discriminate.
Qed.

Lemma get_position_exchange (h : handle) (c : client) (w : world)
    (fuel k : nat) (r : str) :
  socket c = Some h -> sock_closed w = false ->
  stops_at (rx w) (rx_pos w) k -> (k < fuel)%nat ->
  rx w (rx_pos w + k)%nat <> Failure ->
  tx w (tx_pos w) = true ->
  answer (rx w (rx_pos w + S k)%nat) = Some r ->
  get_position fuel (mkMachine c w)
  = Some (Ret r (exchanged k (lit "TP" ++ [CR]) r c w)).
Proof.
  intros Hs Hc Hstop Hfuel Hnf Htx Hans. unfold get_position.
  rewrite (bind_ret_eq _ _ _ _ _
             (send_command_exchange h c w fuel k (lit "TP")
                (lit "TP" ++ [CR]) r Hs Hc Hstop Hfuel Hnf eq_refl Htx Hans)).
  reflexivity.
Qed.

(** C8: the answer is decoded and the characters ['>'], space, carriage
    return and newline are stripped from both ends: what is left lies
    between two runs of such characters and neither starts nor ends with
    one.  When the exchange of [TP] is answered by the bytes
    [b"> 1234\r\n"], the decoded response and [last_response] are
    ["1234"]. *)
Theorem read_response_strips (h : handle) (c : client) (w : world) :
  socket c = Some h -> sock_closed w = false ->
  (forall ch, mem ch delimiters = true <->
              (ch = 62 \/ ch = 32 \/ ch = 13 \/ ch = 10)%N) /\
  (forall bs s,
     rx w (rx_pos w) = Data bs -> decode (firstn 1024 bs) = Some s ->
     read_response (mkMachine c w)
     = Some (Ret (strip delimiters s) (mkMachine c (next_rx w))) /\
     exists pre post,
       s = pre ++ strip delimiters s ++ post /\
       Forall (fun ch => mem ch delimiters = true) pre /\
       Forall (fun ch => mem ch delimiters = true) post /\
       (forall ch t, strip delimiters s = ch :: t ->
                     mem ch delimiters = false) /\
       (forall t ch, strip delimiters s = t ++ [ch] ->
                     mem ch delimiters = false)) /\
  (forall fuel k,
     stops_at (rx w) (rx_pos w) k -> (k < fuel)%nat ->
     rx w (rx_pos w + k)%nat <> Failure ->
     tx w (tx_pos w) = true ->
     rx w (rx_pos w + S k)%nat = Data (lit "> 1234" ++ [CR; LF]) ->
     exists st',
       get_position fuel (mkMachine c w) = Some (Ret (lit "1234") st') /\
       last_response (self st') = lit "1234").
Proof.
  intros Hs Hc. split; [exact mem_delimiters|]. split.
  - intros bs s Hrx Hdec. split.
    + rewrite (read_response_meets h c w Hs Hc), Hrx, Hdec. reflexivity.
    + apply strip_spec.
  - intros fuel k Hstop Hfuel Hnf Htx Hrx.
    eexists. split.
    + apply (get_position_exchange h c w fuel k (lit "1234"));
        try assumption.
      rewrite Hrx. reflexivity.
    + reflexivity.
Qed.

Lemma read_response_strips_witness :
  socket rail = Some (Sock 3) /\
  exists st',
    get_position 1
      (mkMachine rail
         (fresh_link (polite (lit "> 1234" ++ [CR; LF])) (always true) None))
    = Some (Ret (lit "1234") st') /\
    last_response (self st') = lit "1234".
Proof.
  split; [reflexivity|].
  refine (proj2 (proj2 (read_response_strips (Sock 3) rail
            (fresh_link (polite (lit "> 1234" ++ [CR; LF])) (always true)
               None) eq_refl eq_refl)) 1%nat 0%nat _ _ _ eq_refl eq_refl).
  - split; [intros i Hi; inversion Hi | reflexivity].
  - constructor.
  - discriminate.
Defined.

(** ** Failed reads *)

Lemma recv_raises_socket_errors (n : nat) (h : handle) (st st' : machine)
    (e : exn) :
  socket (self st) = Some h ->
  recv n st = Some (Raise e st') -> is_socket_error e = true.
Proof.
  intros Hs. unfold recv, with_socket. rewrite Hs. cbv beta zeta.
  destruct (sock_closed (net st)); [intros [= <- _]; reflexivity|].
  destruct (rx (net st) (rx_pos (net st))) as [bs| |]; try discriminate.
  - destruct (sock_timeout (net st)) as [[| |]|]; try discriminate;
      intros [= <- _]; reflexivity.
  - intros [= <- _]; reflexivity.
Qed.

(** C5: a transport failure of the read in [read_response] does not reach
    the caller: [read_response] never raises a socket error, and when its
    [recv] raises one it returns the empty string.  In an exchange that got
    as far as the read, [send_command] then stores the empty string in
    [last_response], and [get_position] returns it instead of raising. *)
Theorem read_failure_is_swallowed :
  (forall st e st',
     read_response st = Some (Raise e st') -> is_socket_error e = false) /\
  (forall st h e st1,
     socket (self st) = Some h -> recv 1024 st = Some (Raise e st1) ->
     read_response st = Some (Ret [] (set_net (count_print (net st1)) st1))) /\
  (forall h c w fuel k,
     socket c = Some h -> sock_closed w = false ->
     stops_at (rx w) (rx_pos w) k -> (k < fuel)%nat ->
     rx w (rx_pos w + k)%nat <> Failure ->
     tx w (tx_pos w) = true ->
     rx w (rx_pos w + S k)%nat = Failure ->
     (forall command payload,
        encode (command ++ [CR]) = Some payload ->
        exists st',
          send_command fuel command (mkMachine c w) = Some (Ret tt st') /\
          last_response (self st') = []) /\
     exists st',
       get_position fuel (mkMachine c w) = Some (Ret [] st') /\
       last_response (self st') = []).
Proof.
  split; [|split].
  - intros st e st'. unfold read_response, try_except, bind.
    destruct (recv 1024 st) as [[bs st1 | e1 st1]|]; try discriminate.
    + destruct (decode bs); [discriminate|].
      intros [= <- _]. reflexivity.
    + destruct (is_socket_error e1) eqn:He1; [discriminate|].
      intros [= <- _]. exact He1.
  - intros st h e st1 Hs Hrecv.
    pose proof (recv_raises_socket_errors _ _ _ _ _ Hs Hrecv) as He.
    unfold read_response, try_except, bind.
    rewrite Hrecv, He. reflexivity.
  - intros h c w fuel k Hs Hc Hstop Hfuel Hnf Htx Hrx.
    assert (Hans : answer (rx w (rx_pos w + S k)%nat) = Some []).
    { rewrite Hrx. reflexivity. }
    split.
    + intros command payload Henc. eexists. split.
      * exact (send_command_exchange h c w fuel k command payload []
                 Hs Hc Hstop Hfuel Hnf Henc Htx Hans).
      * reflexivity.
    + eexists. split.
      * exact (get_position_exchange h c w fuel k [] Hs Hc Hstop Hfuel Hnf
                 Htx Hans).
      * reflexivity.
Qed.

Lemma read_failure_is_swallowed_witness :
  rx (fresh_link broken_read (always true) None) 1%nat = Failure /\
  exists st',
    get_position 1 (mkMachine rail (fresh_link broken_read (always true) None))
    = Some (Ret [] st') /\
    last_response (self st') = [].
Proof.
  split; [reflexivity|].
  refine (proj2 (proj2 (proj2 read_failure_is_swallowed) (Sock 3) rail
            (fresh_link broken_read (always true) None) 1%nat 0%nat
            eq_refl eq_refl _ _ _ eq_refl eq_refl)).
  - split; [intros i Hi; inversion Hi | reflexivity].
  - constructor.
  - discriminate.
Defined.

(** ** Draining the buffer *)

(** C6, as stated, fails: against a peer that keeps sending non-empty
    chunks, each within the timeout, [clear_buffer] does not return for any
    number of rounds. *)
Lemma clear_buffer_endless :
  ~ exists fuel r,
      clear_buffer fuel (mkMachine rail (fresh_link chatty (always true) None))
      = Some r.
Proof.
  intros [fuel [r H]]. revert H.
  unfold clear_buffer.
  rewrite (bind_ret_eq _ _ _ _ _
             (settimeout_eq (Sock 3) rail
                (fresh_link chatty (always true) None) (Some 100)
                eq_refl eq_refl)).
  unfold try_finally, try_except.
  rewrite (clear_buffer_loop_flows (Sock 3) rail fuel); try reflexivity.
  discriminate.
Qed.

(** C6, amended: on an open socket, whenever some read of the incoming
    sequence returns zero bytes, times out or fails, [clear_buffer] ends
    there (given fuel for the reads before it): it returns normally on a
    zero-length read and on the timeout and raises [OSError] on a failure,
    and on each of these exits the socket is back to blocking without
    timeout. *)
Theorem clear_buffer_terminates (h : handle) (c : client) (w : world)
    (fuel k : nat) :
  socket c = Some h -> sock_closed w = false ->
  stops_at (rx w) (rx_pos w) k -> (k < fuel)%nat ->
  exists st',
    clear_buffer fuel (mkMachine c w)
    = Some (match rx w (rx_pos w + k)%nat with
            | Failure => Raise OSError st'
            | _ => Ret tt st'
            end) /\
    sock_timeout (net st') = None /\
    rx_pos (net st') = (rx_pos w + S k)%nat /\
    self st' = c.
Proof.
  intros Hs Hc Hstop Hfuel.
  exists (mkMachine c (set_timeout None (skip_rx (S k) w))).
  split; [|repeat split].
  rewrite (clear_buffer_stops h c w fuel k Hs Hc Hstop Hfuel).
  destruct (rx w (rx_pos w + k)%nat); reflexivity.
Qed.

Lemma clear_buffer_terminates_witness :
  stops_at stale_then_quiet 0 2 /\
  exists st',
    clear_buffer 3
      (mkMachine rail (fresh_link stale_then_quiet (always true) (Some 0)))
    = Some (Ret tt st') /\
    sock_timeout (net st') = None /\
    rx_pos (net st') = 3%nat /\
    self st' = rail.
Proof.
  assert (Hstop : stops_at stale_then_quiet 0 2).
  { split.
    - intros [|[|i]] Hi; [reflexivity | reflexivity |].
      exfalso. inversion Hi as [|? H1]. inversion H1 as [|? H2].
      inversion H2.
    - reflexivity. }
  split; [exact Hstop|].
  refine (clear_buffer_terminates (Sock 3) rail
            (fresh_link stale_then_quiet (always true) (Some 0)) 3%nat 2%nat
            eq_refl eq_refl Hstop _).
  repeat constructor.
Defined.

(** ** Exchanges that go through *)

(** On a link that serves one more exchange, [send_command] returns; it
    sends the encoded command and nothing else, stores an answer, leaves
    the blocking mode as found and the link ready for the exchanges that
    remain. *)
Lemma send_command_serves (h : handle) (c : client) (w : world)
    (fuel n : nat) (command : str) (payload : bytes) :
  socket c = Some h -> sock_closed w = false ->
  encode (command ++ [CR]) = Some payload ->
  serves fuel (S n) (rx w) (rx_pos w) (tx w) (tx_pos w) ->
  exists r w',
    send_command fuel command (mkMachine c w)
    = Some (Ret tt (mkMachine (with_last_response r c) w')) /\
    sock_closed w' = false /\
    trace w' = trace w ++ [Sent payload] /\
    blocking w' = blocking w /\
    serves fuel n (rx w') (rx_pos w') (tx w') (tx_pos w').
Proof.
  intros Hs Hc Henc [Htx [k [Hfuel [Hstop [Hnf [Hans Hrest]]]]]].
  destruct (answer (rx w (rx_pos w + S k)%nat)) as [r|] eqn:Ea;
    [|contradiction].
  exists r. eexists. split.
  - exact (send_command_exchange h c w fuel k command payload r
             Hs Hc Hstop Hfuel Hnf Henc Htx Ea).
  - simpl. repeat split; try assumption.
    unfold blocking at 1. simpl. unfold blocking.
    destruct (sock_timeout w) as [[| |]|]; reflexivity.
Qed.

(** ** Speed and acceleration *)

Lemma ascii_only_lit_SP : ascii_only (lit "SP").
Proof. repeat constructor. Qed.

Lemma ascii_only_lit_AC : ascii_only (lit "AC").
Proof. repeat constructor. Qed.

Lemma ascii_only_lit_G : ascii_only (lit "G").
Proof. repeat constructor. Qed.

Lemma in_range_true (lo hi v : Z) :
  lo <= v <= hi -> (lo <=? v) && (v <=? hi) = true.
Proof. intros H. apply andb_true_iff. split; apply Z.leb_le; lia. Qed.

Lemma in_range_false (lo hi v : Z) :
  ~ lo <= v <= hi -> (lo <=? v) && (v <=? hi) = false.
Proof.
  intros H. apply andb_false_iff.
  destruct (Z.leb_spec lo v); [|left; reflexivity].
  destruct (Z.leb_spec v hi); [lia | right; reflexivity].
Qed.

(** C3: a speed [v] with [50 <= v <= 10000000] is stored, so that
    [get_speed] returns it however the call ends; at construction nothing
    more happens, otherwise the call is the exchange of [SP<v>], and on a
    link that serves it the call returns having sent [SP<v>] and nothing
    else.  Any other [v] raises [ValueError] and leaves the whole state,
    the stored speed included, as it was.  The same holds for
    [set_acceleration] with the range [100000, 10000000] and [AC<v>]. *)
Theorem set_speed_and_acceleration_validate (fuel : nat) (st : machine)
    (v : Z) :
  (50 <= v <= 10000000 ->
   set_speed fuel v true st
   = Some (Ret tt (set_self (with_speed v (self st)) st)) /\
   set_speed fuel v false st
   = send_command fuel (lit "SP" ++ str_of_int v)
       (set_self (with_speed v (self st)) st) /\
   (forall d r, set_speed fuel v d st = Some r ->
                get_speed (final r) = Some (Ret v (final r))) /\
   (forall h,
      socket (self st) = Some h -> sock_closed (net st) = false ->
      serves fuel 1 (rx (net st)) (rx_pos (net st))
             (tx (net st)) (tx_pos (net st)) ->
      exists st',
        set_speed fuel v false st = Some (Ret tt st') /\
        get_speed st' = Some (Ret v st') /\
        trace (net st')
        = trace (net st) ++ [Sent ((lit "SP" ++ str_of_int v) ++ [CR])])) /\
  (~ 50 <= v <= 10000000 ->
   forall d, set_speed fuel v d st
             = Some (Raise (ValueError "Speed value out of range") st)) /\
  (100000 <= v <= 10000000 ->
   set_acceleration fuel v true st
   = Some (Ret tt (set_self (with_acceleration v (self st)) st)) /\
   set_acceleration fuel v false st
   = send_command fuel (lit "AC" ++ str_of_int v)
       (set_self (with_acceleration v (self st)) st) /\
   (forall d r, set_acceleration fuel v d st = Some r ->
                get_acceleration (final r) = Some (Ret v (final r))) /\
   (forall h,
      socket (self st) = Some h -> sock_closed (net st) = false ->
      serves fuel 1 (rx (net st)) (rx_pos (net st))
             (tx (net st)) (tx_pos (net st)) ->
      exists st',
        set_acceleration fuel v false st = Some (Ret tt st') /\
        get_acceleration st' = Some (Ret v st') /\
        trace (net st')
        = trace (net st) ++ [Sent ((lit "AC" ++ str_of_int v) ++ [CR])])) /\
  (~ 100000 <= v <= 10000000 ->
   forall d, set_acceleration fuel v d st
             = Some (Raise (ValueError "Acceleration value out of range") st)).
Proof.
  destruct st as [c w]. repeat apply conj.
  - intros Hv. unfold set_speed. rewrite (in_range_true _ _ _ Hv).
    repeat apply conj.
    + reflexivity.
    + reflexivity.
    + intros d r. unfold bind, assign, get_speed, attr.
      destruct d; simpl.
      * intros [= <-]. reflexivity.
      * intros Hr.
        pose proof (keeps_send_command _ _ _ _ Hr) as K.
        destruct K as (_ & _ & _ & _ & K & _). simpl in K.
        rewrite K. reflexivity.
    + simpl. intros h Hs Hc Hserve.
      destruct (send_command_serves h (with_speed v c) w fuel 0
                  (lit "SP" ++ str_of_int v) _ Hs Hc
                  (encode_command "SP" v ascii_only_lit_SP) Hserve)
        as (r & w' & E & _ & Htr & _).
      eexists. split; [exact E|]. split; [reflexivity | exact Htr].
  - intros Hv d. unfold set_speed. rewrite (in_range_false _ _ _ Hv).
    reflexivity.
  - intros Hv. unfold set_acceleration. rewrite (in_range_true _ _ _ Hv).
    repeat apply conj.
    + reflexivity.
    + reflexivity.
    + intros d r. unfold bind, assign, get_acceleration, attr.
      destruct d; simpl.
      * intros [= <-]. reflexivity.
      * intros Hr.
        pose proof (keeps_send_command _ _ _ _ Hr) as K.
        destruct K as (_ & _ & _ & _ & _ & K & _). simpl in K.
        rewrite K. reflexivity.
    + simpl. intros h Hs Hc Hserve.
      destruct (send_command_serves h (with_acceleration v c) w fuel 0
                  (lit "AC" ++ str_of_int v) _ Hs Hc
                  (encode_command "AC" v ascii_only_lit_AC) Hserve)
        as (r & w' & E & _ & Htr & _).
      eexists. split; [exact E|]. split; [reflexivity | exact Htr].
  - intros Hv d. unfold set_acceleration.
    rewrite (in_range_false _ _ _ Hv). reflexivity.
Qed.

Lemma polite_even (reply : bytes) (j : nat) :
  polite reply (2 * j) = Silence /\ polite reply (2 * j + 1) = Data reply.
Proof.
  unfold polite. split.
  - rewrite Nat.even_mul. reflexivity.
  - rewrite Nat.add_1_r, Nat.even_succ, <- Nat.negb_even, Nat.even_mul.
    reflexivity.
Qed.

(** A polite peer serves any number of exchanges. *)
Lemma polite_serves (reply : bytes) (fuel n : nat) :
  decode (firstn 1024 reply) <> None ->
  forall j tpos,
    serves (S fuel) n (polite reply) (2 * j) (always true) tpos.
Proof.
  intros Hdec. induction n as [|n IH]; intros j tpos; cbn [serves].
  - exact I.
  - split; [reflexivity|]. exists 0%nat.
    destruct (polite_even reply j) as [E0 E1].
    rewrite Nat.add_0_r.
    replace (2 * j + 2)%nat with (2 * (S j))%nat by lia.
    repeat split.
    + lia.
    + intros i Hi. lia.
    + rewrite Nat.add_0_r, E0. reflexivity.
    + rewrite E0. discriminate.
    + rewrite E1. cbn [answer]. destruct (decode (firstn 1024 reply));
        [discriminate | contradiction].
    + apply IH.
Qed.

Lemma set_speed_and_acceleration_validate_witness :
  (50 <= 200000 <= 10000000 /\
   serves 1 1 (polite (lit ">")) 0 (always true) 0 /\
   exists st',
     set_speed 1 200000 false
       (mkMachine rail (fresh_link (polite (lit ">")) (always true) None))
     = Some (Ret tt st') /\
     get_speed st' = Some (Ret 200000 st') /\
     trace (net st') = [Sent (lit "SP200000" ++ [CR])]) /\
  (~ 50 <= 10 <= 10000000 /\
   set_speed 1 10 false
     (mkMachine rail (fresh_link (polite (lit ">")) (always true) None))
   = Some (Raise (ValueError "Speed value out of range")
             (mkMachine rail
                (fresh_link (polite (lit ">")) (always true) None)))) /\
  (100000 <= 200000 <= 10000000 /\
   exists st',
     set_acceleration 1 200000 false
       (mkMachine rail (fresh_link (polite (lit ">")) (always true) None))
     = Some (Ret tt st') /\
     get_acceleration st' = Some (Ret 200000 st') /\
     trace (net st') = [Sent (lit "AC200000" ++ [CR])]) /\
  (~ 100000 <= 10 <= 10000000 /\
   set_acceleration 1 10 false
     (mkMachine rail (fresh_link (polite (lit ">")) (always true) None))
   = Some (Raise (ValueError "Acceleration value out of range")
             (mkMachine rail
                (fresh_link (polite (lit ">")) (always true) None)))).
Proof.
  pose proof (polite_serves (lit ">") 0 1 ltac:(discriminate) 0%nat 0%nat)
    as Hserve.
  pose proof (set_speed_and_acceleration_validate 1
                (mkMachine rail
                   (fresh_link (polite (lit ">")) (always true) None))
                200000) as (Hs & _ & Ha & _).
  pose proof (set_speed_and_acceleration_validate 1
                (mkMachine rail
                   (fresh_link (polite (lit ">")) (always true) None))
                10) as (_ & Hs' & _ & Ha').
  split; [split; [lia | split; [exact Hserve|]] | split; [split; [lia|] |
    split; [split; [lia|] | split; [lia|]]]].
  - exact (proj2 (proj2 (proj2 (Hs ltac:(lia)))) (Sock 3) eq_refl eq_refl
             Hserve).
  - exact (Hs' ltac:(lia) false).
  - exact (proj2 (proj2 (proj2 (Ha ltac:(lia)))) (Sock 3) eq_refl eq_refl
             Hserve).
  - exact (Ha' ltac:(lia) false).
Defined.

(** ** Positions *)


Lemma encode_bool_command (b : bool) :
  encode ((lit "G" ++ str_of_bool b) ++ [CR])
  = Some ((lit "G" ++ (if b then lit "True" else lit "False")) ++ [CR]).
Proof. destruct b; reflexivity. Qed.




(** C10: whatever value it is given and however it ends, [set_position]
    leaves [limit_left], [limit_right], [speed], [acceleration], the
    address and the socket attribute as they were: only [last_response]
    can differ, no position is kept.  For an accepted integer on a link
    that serves the exchange the call does return, in such a state. *)
Theorem set_position_keeps_settings (fuel : nat) (value : pyval)
    (st : machine) :
  (forall r, set_position fuel value st = Some r ->
             same_settings (self st) (self (final r))) /\
  (forall z hi h,
     value = PInt z -> limit_right (self st) = Some hi ->
     limit_left (self st) <= z <= hi ->
     socket (self st) = Some h -> sock_closed (net st) = false ->
     serves fuel 1 (rx (net st)) (rx_pos (net st))
            (tx (net st)) (tx_pos (net st)) ->
     exists st',
       set_position fuel value st = Some (Ret tt st') /\
       same_settings (self st) (self st')).
Proof.
  assert (K : keeps (set_position fuel value)).
  { unfold set_position. pose proof (keeps_send_command fuel) as Hsend.
    apply keeps_bind.
    - destruct value as [z | b | f | s |]; auto with frame.
      destruct (int_of_float f); auto with frame.
    - intros v. frame.
      destruct (a <=? int_value v); [|auto with frame].
      destruct a0 as [hi|]; [|auto with frame].
      destruct (int_value v <=? hi); auto with frame. }
  split; [exact (K st)|].
  intros z hi h -> Hr Hz Hs Hc Hserve.
  assert (E : set_position fuel (PInt z) st
              = send_command fuel (lit "G" ++ str_of_int z) st).
  { unfold set_position, bind, ret, attr. rewrite Hr. simpl.
    destruct (Z.leb_spec (limit_left (self st)) z); [|lia].
    destruct (Z.leb_spec z hi); [reflexivity | lia]. }
  destruct st as [c w]. simpl in *.
  destruct (send_command_serves h c w fuel 0 (lit "G" ++ str_of_int z) _
              Hs Hc (encode_command "G" z ascii_only_lit_G) Hserve)
    as (a & w' & Es & _).
  eexists. split.
  - rewrite E. exact Es.
  - exact (K _ _ (eq_trans E Es)).
Qed.

Lemma set_position_keeps_settings_witness :
  limit_left rail <= 5000 <= 10000 /\
  exists st',
    set_position 1 (PInt 5000)
      (mkMachine rail (fresh_link (polite (lit ">")) (always true) None))
    = Some (Ret tt st') /\
    same_settings rail (self st').
Proof.
  split; [simpl; lia|].
  exact (proj2 (set_position_keeps_settings 1 (PInt 5000)
                  (mkMachine rail
                     (fresh_link (polite (lit ">")) (always true) None)))
           5000 10000 (Sock 3) eq_refl eq_refl ltac:(simpl; lia)
           eq_refl eq_refl
           (polite_serves (lit ">") 0 1 ltac:(discriminate) 0%nat 0%nat)).
Defined.

(** ** Initialization *)

Lemma send_command_then (h : handle) (st : machine) (fuel n : nat)
    (command : str) (payload : bytes) :
  socket (self st) = Some h -> sock_closed (net st) = false ->
  encode (command ++ [CR]) = Some payload ->
  serves fuel (S n) (rx (net st)) (rx_pos (net st))
         (tx (net st)) (tx_pos (net st)) ->
  exists st',
    send_command fuel command st = Some (Ret tt st') /\
    socket (self st') = Some h /\
    speed (self st') = speed (self st) /\
    acceleration (self st') = acceleration (self st) /\
    sock_closed (net st') = false /\
    trace (net st') = trace (net st) ++ [Sent payload] /\
    serves fuel n (rx (net st')) (rx_pos (net st'))
           (tx (net st')) (tx_pos (net st')).
Proof.
  destruct st as [c w]. simpl. intros Hs Hc Henc Hserve.
  destruct (send_command_serves h c w fuel n command payload Hs Hc Henc
              Hserve) as (r & w' & E & Hc' & Htr & _ & Hrest).
  exists (mkMachine (with_last_response r c) w'). simpl.
  repeat split; assumption.
Qed.

(** One round of the loop of [initialize]: the command, then the pause. *)
Lemma setup_round (h : handle) (st : machine) (fuel n : nat)
    (command : str) (payload : bytes) :
  socket (self st) = Some h -> sock_closed (net st) = false ->
  encode (command ++ [CR]) = Some payload ->
  serves fuel (S n) (rx (net st)) (rx_pos (net st))
         (tx (net st)) (tx_pos (net st)) ->
  exists st',
    (send_command fuel command ;; sleep 200) st = Some (Ret tt st') /\
    socket (self st') = Some h /\
    speed (self st') = speed (self st) /\
    acceleration (self st') = acceleration (self st) /\
    sock_closed (net st') = false /\
    trace (net st') = trace (net st) ++ [Sent payload; Slept 200] /\
    serves fuel n (rx (net st')) (rx_pos (net st'))
           (tx (net st')) (tx_pos (net st')).
Proof.
  intros Hs Hc Henc Hserve.
  destruct (send_command_then h st fuel n command payload Hs Hc Henc Hserve)
    as (st1 & E & Hs1 & Hsp & Hac & Hc1 & Htr & Hrest).
  exists (set_net (log (Slept 200) (net st1)) st1).
  rewrite (bind_ret_eq _ _ _ _ _ E). simpl.
  repeat split; try assumption.
  rewrite Htr, <- app_assoc. reflexivity.
Qed.

(** C7, as stated, fails: in a run of [initialize] against a polite peer
    the seven commands go out in order, with a pause after each of the
    first five, but [AC<acceleration>] follows [SP<speed>] with no pause
    between them. *)
Lemma initialize_no_pause_before_acceleration :
  exists st',
    initialize 1
      (mkMachine rail (fresh_link (polite (lit ">")) (always true) None))
    = Some (Ret tt st') /\
    trace (net st')
    = [Sent (lit "ECH0" ++ [CR]); Slept 200;
       Sent (lit "PW" ++ [CR]); Slept 200;
       Sent (lit "EVT1" ++ [CR]); Slept 200;
       Sent (lit "HORM" ++ [CR]); Slept 200;
       Sent (lit "EVT0" ++ [CR]); Slept 200;
       Sent (lit "SP100000" ++ [CR]);
       Sent (lit "AC1000000" ++ [CR])] /\
    pauses_between_sends (trace (net st')) = false.
Proof.
  eexists. split; [vm_compute; reflexivity|].
  split; reflexivity.
Qed.

(** C7, amended: on a link that serves seven exchanges, with the stored
    speed and acceleration in their ranges, [initialize] returns having
    sent exactly [ECH0], [PW], [EVT1], [HORM], [EVT0], [SP<speed>] and
    [AC<acceleration>] in this order, with the 200 ms pause after each of
    the five setup commands; the stored speed and acceleration are the
    ones it found. *)
Theorem initialize_sequence (h : handle) (st : machine) (fuel : nat) :
  socket (self st) = Some h -> sock_closed (net st) = false ->
  50 <= speed (self st) <= 10000000 ->
  100000 <= acceleration (self st) <= 10000000 ->
  serves fuel 7 (rx (net st)) (rx_pos (net st))
         (tx (net st)) (tx_pos (net st)) ->
  exists st',
    initialize fuel st = Some (Ret tt st') /\
    trace (net st')
    = trace (net st)
      ++ [Sent (lit "ECH0" ++ [CR]); Slept 200;
          Sent (lit "PW" ++ [CR]); Slept 200;
          Sent (lit "EVT1" ++ [CR]); Slept 200;
          Sent (lit "HORM" ++ [CR]); Slept 200;
          Sent (lit "EVT0" ++ [CR]); Slept 200;
          Sent ((lit "SP" ++ str_of_int (speed (self st))) ++ [CR]);
          Sent ((lit "AC" ++ str_of_int (acceleration (self st))) ++ [CR])] /\
    speed (self st') = speed (self st) /\
    acceleration (self st') = acceleration (self st).
Proof.
  intros Hs Hc Hsp Hac H7.
  unfold initialize. cbn [for_each].
  destruct (setup_round h st fuel 6 (lit "ECH0") _ Hs Hc eq_refl H7)
    as (s1 & E1 & Hs1 & Hsp1 & Hac1 & Hc1 & T1 & H6).
  destruct (setup_round h s1 fuel 5 (lit "PW") _ Hs1 Hc1 eq_refl H6)
    as (s2 & E2 & Hs2 & Hsp2 & Hac2 & Hc2 & T2 & H5).
  destruct (setup_round h s2 fuel 4 (lit "EVT1") _ Hs2 Hc2 eq_refl H5)
    as (s3 & E3 & Hs3 & Hsp3 & Hac3 & Hc3 & T3 & H4).
  destruct (setup_round h s3 fuel 3 (lit "HORM") _ Hs3 Hc3 eq_refl H4)
    as (s4 & E4 & Hs4 & Hsp4 & Hac4 & Hc4 & T4 & H3).
  destruct (setup_round h s4 fuel 2 (lit "EVT0") _ Hs4 Hc4 eq_refl H3)
    as (s5 & E5 & Hs5 & Hsp5 & Hac5 & Hc5 & T5 & H2).
  assert (Esp : speed (self s5) = speed (self st)) by congruence.
  assert (Eac : acceleration (self s5) = acceleration (self st))
    by congruence.
  destruct (send_command_then h
              (set_self (with_speed (speed (self st)) (self s5)) s5) fuel 1
              (lit "SP" ++ str_of_int (speed (self st))) _ Hs5 Hc5
              (encode_command "SP" _ ascii_only_lit_SP) H2)
    as (s6 & E6 & Hs6 & Hsp6 & Hac6 & Hc6 & T6 & H1).
  destruct (send_command_then h
              (set_self (with_acceleration (acceleration (self st))
                           (self s6)) s6) fuel 0
              (lit "AC" ++ str_of_int (acceleration (self st))) _ Hs6 Hc6
              (encode_command "AC" _ ascii_only_lit_AC) H1)
    as (s7 & E7 & Hs7 & Hsp7 & Hac7 & Hc7 & T7 & _).
  exists s7. split; [|split; [|split]].
  - unfold bind at 1.
    assert (Eloop :
      ((send_command fuel (lit "ECH0");; sleep 200);;
       (send_command fuel (lit "PW");; sleep 200);;
       (send_command fuel (lit "EVT1");; sleep 200);;
       (send_command fuel (lit "HORM");; sleep 200);;
       (send_command fuel (lit "EVT0");; sleep 200);; ret tt) st
      = Some (Ret tt s5)).
    { rewrite (bind_ret_eq _ _ _ _ _ E1), (bind_ret_eq _ _ _ _ _ E2),
        (bind_ret_eq _ _ _ _ _ E3), (bind_ret_eq _ _ _ _ _ E4),
        (bind_ret_eq _ _ _ _ _ E5).
      reflexivity. }
    rewrite Eloop.
    unfold bind at 1, attr at 1. rewrite Esp.
    unfold set_speed. rewrite (in_range_true _ _ _ Hsp).
    unfold bind at 1.
    unfold bind at 1, assign at 1. change (negb false) with true. cbv iota.
    rewrite E6.
    unfold bind at 1, attr at 1.
    replace (acceleration (self s6)) with (acceleration (self st))
      by (rewrite Hac6; simpl; symmetry; exact Eac).
    unfold set_acceleration. rewrite (in_range_true _ _ _ Hac).
    unfold bind at 1, assign at 1. change (negb false) with true. cbv iota.
    exact E7.
  - rewrite T7. simpl trace. rewrite T6. simpl trace.
    rewrite T5, T4, T3, T2, T1.
    repeat rewrite <- app_assoc. reflexivity.
  - rewrite Hsp7. simpl. rewrite Hsp6. reflexivity.
  - rewrite Hac7. reflexivity.
Qed.

Lemma initialize_sequence_witness :
  serves 1 7 (polite (lit ">")) 0 (always true) 0 /\
  exists st',
    initialize 1
      (mkMachine rail (fresh_link (polite (lit ">")) (always true) None))
    = Some (Ret tt st') /\
    trace (net st')
    = [Sent (lit "ECH0" ++ [CR]); Slept 200;
       Sent (lit "PW" ++ [CR]); Slept 200;
       Sent (lit "EVT1" ++ [CR]); Slept 200;
       Sent (lit "HORM" ++ [CR]); Slept 200;
       Sent (lit "EVT0" ++ [CR]); Slept 200;
       Sent (lit "SP100000" ++ [CR]);
       Sent (lit "AC1000000" ++ [CR])] /\
    speed (self st') = 100000 /\
    acceleration (self st') = 1000000.
Proof.
  pose proof (polite_serves (lit ">") 0 7 ltac:(discriminate) 0%nat 0%nat)
    as Hserve.
  split; [exact Hserve|].
  exact (initialize_sequence (Sock 3)
           (mkMachine rail (fresh_link (polite (lit ">")) (always true) None))
           1 eq_refl eq_refl ltac:(simpl; lia) ltac:(simpl; lia) Hserve).
Defined.

(** ** Exits by exception *)

Lemma bind_ret_inv {A B} (m : M A) (k : A -> M B) (st st' : machine)
    (b : B) :
  bind m k st = Some (Ret b st') ->
  exists a st1, m st = Some (Ret a st1) /\ k a st1 = Some (Ret b st').
Proof.
  unfold bind. destruct (m st) as [[a st1 | e st1]|]; try discriminate.
  intros H. exists a, st1. split; [reflexivity | exact H].
Qed.

Lemma getblocking_ret_inv (st st1 : machine) (a : bool) :
  getblocking st = Some (Ret a st1) -> a = blocking (net st) /\ st1 = st.
Proof.
  unfold getblocking, with_socket, blocking.
  destruct (socket (self st)); [|discriminate].
  intros [= <- <-]. split; reflexivity.
Qed.

Lemma setblocking_ret_inv (st st' : machine) (flag : bool) :
  setblocking flag st = Some (Ret tt st') -> blocking (net st') = flag.
Proof.
  unfold setblocking, settimeout, with_socket, blocking.
  destruct (socket (self st)); [|discriminate]. cbv beta zeta.
  destruct (sock_closed (net st)); [discriminate|].
  intros [= <-]. destruct flag; reflexivity.
Qed.

(** When [send_command] returns, the socket is in the blocking mode the
    call found. *)
Lemma send_command_restores_on_return (fuel : nat) (command : str)
    (st st' : machine) :
  send_command fuel command st = Some (Ret tt st') ->
  blocking (net st') = blocking (net st).
Proof.
  unfold send_command. intros H.
  apply bind_ret_inv in H. destruct H as (orig & s1 & Hg & H).
  apply getblocking_ret_inv in Hg. destruct Hg as [-> ->].
  apply bind_ret_inv in H. destruct H as (u1 & s2 & _ & H).
  apply bind_ret_inv in H. destruct H as (u2 & s3 & _ & H).
  cbv zeta in H. destruct (encode (command ++ [CR])); [|discriminate].
  apply bind_ret_inv in H. destruct H as (u3 & s4 & _ & H).
  apply bind_ret_inv in H. destruct H as (r & s5 & _ & H).
  apply bind_ret_inv in H. destruct H as (u4 & s6 & _ & H).
  exact (setblocking_ret_inv _ _ _ H).
Qed.

(** When the send fails, [send_command] leaves by [OSError] with the
    socket blocking without timeout, whatever mode it had found. *)
Lemma send_command_send_failure (h : handle) (c : client) (w : world)
    (fuel k : nat) (command : str) (payload : bytes) :
  socket c = Some h -> sock_closed w = false ->
  stops_at (rx w) (rx_pos w) k -> (k < fuel)%nat ->
  rx w (rx_pos w + k)%nat <> Failure ->
  encode (command ++ [CR]) = Some payload ->
  tx w (tx_pos w) = false ->
  send_command fuel command (mkMachine c w)
  = Some (Raise OSError
            (mkMachine c (next_tx (set_timeout None (skip_rx (S k) w))))).
Proof.
  intros Hs Hc Hstop Hfuel Hnf Henc Htx.
  unfold send_command.
  rewrite (bind_ret_eq _ _ _ _ _ (getblocking_eq h c w Hs)).
  unfold setblocking at 1.
  rewrite (bind_ret_eq _ _ _ _ _ (settimeout_eq h c w None Hs Hc)).
  assert (Hclear : clear_buffer fuel (mkMachine c (set_timeout None w))
                   = Some (Ret tt (mkMachine c
                       (set_timeout None (skip_rx (S k) w))))).
  { rewrite (clear_buffer_stops h c _ fuel k); simpl; try assumption.
    destruct (rx w (rx_pos w + k)%nat); try reflexivity. contradiction. }
  rewrite (bind_ret_eq _ _ _ _ _ Hclear). rewrite Henc.
  apply bind_raise_eq.
  rewrite (sendall_eq h c); simpl; try assumption.
  rewrite Htx. reflexivity.
Qed.

(** Then [disconnect] leaves the same way, without reaching [close]. *)
Lemma disconnect_send_failure (h : handle) (c : client) (w : world)
    (fuel k : nat) :
  socket c = Some h -> sock_closed w = false ->
  stops_at (rx w) (rx_pos w) k -> (k < fuel)%nat ->
  rx w (rx_pos w + k)%nat <> Failure ->
  tx w (tx_pos w) = false ->
  disconnect fuel (mkMachine c w)
  = Some (Raise OSError
            (mkMachine c (next_tx (set_timeout None (skip_rx (S k) w))))).
Proof.
  intros Hs Hc Hstop Hfuel Hnf Htx. unfold disconnect.
  apply bind_raise_eq.
  exact (send_command_send_failure h c w fuel k (lit "PQ") _ Hs Hc Hstop
           Hfuel Hnf eq_refl Htx).
Qed.

(** C1 at its failing input: the caller has made the socket non-blocking,
    the buffer is dry and [sendall] fails.  [send_command] saved the mode,
    yet it leaves by [OSError] with the socket blocking without timeout:
    the mode it found is not restored on this exit. *)
Theorem send_command_send_error_loses_mode :
  getblocking
    (mkMachine rail (fresh_link (polite (lit ">")) (always false) (Some 0)))
  = Some (Ret false
            (mkMachine rail
               (fresh_link (polite (lit ">")) (always false) (Some 0)))) /\
  exists st',
    send_command 1 (lit "TP")
      (mkMachine rail (fresh_link (polite (lit ">")) (always false) (Some 0)))
    = Some (Raise OSError st') /\
    sock_timeout (net st') = None /\
    getblocking st' = Some (Ret true st').
Proof.
  split; [reflexivity|].
  eexists. split; [vm_compute; reflexivity|].
  split; reflexivity.
Qed.

Lemma closes_app (t u : list event) :
  closes (t ++ u) = (closes t + closes u)%nat.
Proof.
  induction t as [|[bs | ms |] t IH]; simpl; try exact IH.
  - reflexivity.
  - rewrite IH. reflexivity.
Qed.

(** When the exchange of [PQ] goes through, [disconnect] closes the socket,
    once. *)
Lemma disconnect_closes_after_exchange (h : handle) (st : machine)
    (fuel : nat) :
  socket (self st) = Some h -> sock_closed (net st) = false ->
  serves fuel 1 (rx (net st)) (rx_pos (net st))
         (tx (net st)) (tx_pos (net st)) ->
  exists st',
    disconnect fuel st = Some (Ret tt st') /\
    sock_closed (net st') = true /\
    trace (net st') = trace (net st) ++ [Sent (lit "PQ" ++ [CR]); Closed] /\
    closes (trace (net st')) = S (closes (trace (net st))).
Proof.
  intros Hs Hc Hserve.
  destruct (send_command_then h st fuel 0 (lit "PQ") _ Hs Hc eq_refl Hserve)
    as (s1 & E & Hs1 & _ & _ & Hc1 & T & _).
  exists (set_net (log Closed (mark_closed (net s1))) s1).
  unfold disconnect. rewrite (bind_ret_eq _ _ _ _ _ E).
  unfold close, with_socket. rewrite Hs1, Hc1. simpl.
  assert (Tr : trace (net s1) ++ [Closed]
               = trace (net st) ++ [Sent (lit "PQ" ++ [CR]); Closed]).
  { rewrite T, <- app_assoc. reflexivity. }
  repeat split.
  - exact Tr.
  - rewrite Tr, closes_app. simpl. lia.
Qed.

(** C2 at its failing input: the send of [PQ] fails.  [disconnect] leaves
    by [OSError] before it reaches [close]: the socket is still open and
    was not closed at all. *)
Theorem disconnect_send_error_skips_close :
  exists st',
    disconnect 1
      (mkMachine rail (fresh_link (polite (lit ">")) (always false) None))
    = Some (Raise OSError st') /\
    sock_closed (net st') = false /\
    closes (trace (net st')) = 0%nat.
Proof.
  eexists. split; [vm_compute; reflexivity|].
  split; reflexivity.
Qed.

(** * Further properties *)

(** ** Relations kept along a computation *)

Section Preserve.
Variable R : machine -> machine -> Prop.
Hypothesis R_refl : forall st, R st st.
Hypothesis R_trans : forall a b c, R a b -> R b c -> R a c.

Lemma preserves_ret {A} (a : A) : preserves R (ret a).
Proof. intros st r [= <-]. apply R_refl. Qed.

Lemma preserves_raise {A} (e : exn) : preserves R (@raise A e).
Proof. intros st r [= <-]. apply R_refl. Qed.

Lemma preserves_attr {A} (f : client -> A) : preserves R (attr f).
Proof. intros st r [= <-]. apply R_refl. Qed.

Lemma preserves_bind {A B} (m : M A) (k : A -> M B) :
  preserves R m -> (forall a, preserves R (k a)) -> preserves R (bind m k).
Proof.
  intros Hm Hk st r. unfold bind.
  destruct (m st) as [[a st1 | e st1]|] eqn:E; try discriminate.
  - intros Hr. exact (R_trans _ _ _ (Hm _ _ E) (Hk a _ _ Hr)).
  - intros [= <-]. exact (Hm _ _ E).
Qed.

Lemma preserves_try_except {A} (body : M A) (catches : exn -> bool)
    (handler : exn -> M A) :
  preserves R body -> (forall e, preserves R (handler e)) ->
  preserves R (try_except body catches handler).
Proof.
  intros Hb Hh st r. unfold try_except.
  destruct (body st) as [[a st1 | e st1]|] eqn:E; try discriminate.
  - intros [= <-]. exact (Hb _ _ E).
  - destruct (catches e).
    + intros Hr. exact (R_trans _ _ _ (Hb _ _ E) (Hh e _ _ Hr)).
    + intros [= <-]. exact (Hb _ _ E).
Qed.

Lemma preserves_try_finally {A} (body : M A) (fin : M unit) :
  preserves R body -> preserves R fin ->
  preserves R (try_finally body fin).
Proof.
  intros Hb Hf st r. unfold try_finally.
  destruct (body st) as [[a st1 | e st1]|] eqn:E; try discriminate;
    (destruct (fin st1) as [[u st2 | e2 st2]|] eqn:F; try discriminate);
    intros [= <-]; exact (R_trans _ _ _ (Hb _ _ E) (Hf _ _ F)).
Qed.

Lemma preserves_with_socket {A} (m : M A) :
  preserves R m -> preserves R (with_socket m).
Proof.
  intros Hm st r. unfold with_socket.
  destruct (socket (self st)).
  - apply Hm.
  - intros [= <-]. apply R_refl.
Qed.

Lemma preserves_for_each {A} (xs : list A) (body : A -> M unit) :
  (forall x, preserves R (body x)) -> preserves R (for_each xs body).
Proof.
  intros Hb. induction xs as [|x xs IH]; simpl.
  - apply preserves_ret.
  - apply preserves_bind; [apply Hb | intros _; exact IH].
Qed.
End Preserve.

Lemma unchanged_refl {X} (f : machine -> X) (st : machine) :
  unchanged f st st.
Proof. reflexivity. Qed.

Lemma unchanged_trans {X} (f : machine -> X) (a b c : machine) :
  unchanged f a b -> unchanged f b c -> unchanged f a c.
Proof. unfold unchanged. congruence. Qed.

(** The primitives leave alone every observation that does not look at
    what they write. *)
Section Unchanged.
Context {X : Type} (f : machine -> X).

Lemma unchanged_getblocking : preserves (unchanged f) getblocking.
Proof.
  apply preserves_with_socket; [apply unchanged_refl|].
  intros st r [= <-]. reflexivity.
Qed.

Lemma unchanged_settimeout (t : option Z) :
  (forall st, f (set_net (set_timeout t (net st)) st) = f st) ->
  preserves (unchanged f) (settimeout t).
Proof.
  intros Hf. apply preserves_with_socket; [apply unchanged_refl|].
  intros st r. cbv beta zeta.
  destruct (sock_closed (net st)); intros [= <-]; apply Hf.
Qed.

Lemma unchanged_recv (n : nat) :
  (forall st, f (set_net (next_rx (net st)) st) = f st) ->
  preserves (unchanged f) (recv n).
Proof.
  intros Hf. apply preserves_with_socket; [apply unchanged_refl|].
  intros st r. cbv beta zeta.
  destruct (sock_closed (net st)); [intros [= <-]; reflexivity|].
  destruct (rx (net st) (rx_pos (net st))) as [bs| |].
  - intros [= <-]. apply Hf.
  - destruct (sock_timeout (net st)) as [[| |]|]; try discriminate;
      intros [= <-]; apply Hf.
  - intros [= <-]. apply Hf.
Qed.

Lemma unchanged_sendall (data : bytes) :
  (forall st, f (set_net (next_tx (net st)) st) = f st) ->
  (forall st, f (set_net (log (Sent data) (next_tx (net st))) st) = f st) ->
  preserves (unchanged f) (sendall data).
Proof.
  intros Hf Hg. apply preserves_with_socket; [apply unchanged_refl|].
  intros st r. cbv beta zeta.
  destruct (sock_closed (net st)); [intros [= <-]; reflexivity|].
  destruct (tx (net st) (tx_pos (net st))); intros [= <-];
    [apply Hg | apply Hf].
Qed.

Lemma unchanged_print_line :
  (forall st, f (set_net (count_print (net st)) st) = f st) ->
  preserves (unchanged f) print_line.
Proof. intros Hf st r [= <-]. apply Hf. Qed.

Lemma unchanged_assign (g : client -> client) :
  (forall st, f (set_self (g (self st)) st) = f st) ->
  preserves (unchanged f) (assign g).
Proof. intros Hf st r [= <-]. apply Hf. Qed.

Lemma unchanged_clear_buffer_loop (fuel : nat) :
  (forall st, f (set_net (next_rx (net st)) st) = f st) ->
  preserves (unchanged f) (clear_buffer_loop fuel).
Proof.
  intros Hf. induction fuel as [|fuel IH]; simpl.
  - intros st r. discriminate.
  - apply preserves_bind; [exact (unchanged_trans f) | |].
    + apply unchanged_recv. exact Hf.
    + intros [|b bs]; [|exact IH].
      apply preserves_ret. exact (unchanged_refl f).
Qed.

Lemma unchanged_read_response :
  (forall st, f (set_net (next_rx (net st)) st) = f st) ->
  (forall st, f (set_net (count_print (net st)) st) = f st) ->
  preserves (unchanged f) read_response.
Proof.
  intros Hf Hp. unfold read_response.
  apply preserves_try_except; [exact (unchanged_trans f) | |].
  - apply preserves_bind; [exact (unchanged_trans f) | |].
    + apply unchanged_recv. exact Hf.
    + intros bs. destruct (decode bs).
      * apply preserves_ret. exact (unchanged_refl f).
      * apply preserves_raise. exact (unchanged_refl f).
  - intros e. apply preserves_bind; [exact (unchanged_trans f) | |].
    + apply unchanged_print_line. exact Hp.
    + intros _. apply preserves_ret. exact (unchanged_refl f).
Qed.
End Unchanged.

(** ** Construction *)

(** X1: the constructor validates speed and acceleration without any I/O.
    With both in range it builds the object around its arguments, with no
    socket and an empty [last_response], and leaves the world alone; a
    speed out of range raises the speed error, an acceleration out of
    range (the speed being fine) the acceleration error; so it returns
    only with both values in range. *)
Theorem constructor_validates (ip : string) (p l : Z) (r : option Z)
    (sp ac : Z) (st : machine) :
  (50 <= sp <= 10000000 -> 100000 <= ac <= 10000000 ->
   __init__ ip p l r sp ac st
   = Some (Ret tt (set_self (mkClient ip p l r sp ac None []) st))) /\
  (~ 50 <= sp <= 10000000 ->
   exists st', __init__ ip p l r sp ac st
               = Some (Raise (ValueError "Speed value out of range") st') /\
               net st' = net st) /\
  (50 <= sp <= 10000000 -> ~ 100000 <= ac <= 10000000 ->
   exists st', __init__ ip p l r sp ac st
               = Some (Raise (ValueError "Acceleration value out of range")
                         st') /\
               net st' = net st) /\
  (forall st', __init__ ip p l r sp ac st = Some (Ret tt st') ->
               in_ranges (self st') /\ socket (self st') = None /\
               net st' = net st).
Proof.
  unfold __init__, set_speed, set_acceleration, bind, assign, ret, raise.
  repeat apply conj.
  - intros Hsp Hac. simpl.
    rewrite (in_range_true _ _ _ Hsp). simpl.
    rewrite (in_range_true _ _ _ Hac). reflexivity.
  - intros Hsp. simpl. rewrite (in_range_false _ _ _ Hsp).
    eexists. split; reflexivity.
  - intros Hsp Hac. simpl.
    rewrite (in_range_true _ _ _ Hsp). simpl.
    rewrite (in_range_false _ _ _ Hac).
    eexists. split; reflexivity.
  - intros st'. simpl.
    destruct ((50 <=? sp) && (sp <=? 10000000)) eqn:Esp; [|discriminate].
    simpl.
    destruct ((100000 <=? ac) && (ac <=? 10000000)) eqn:Eac; [|discriminate].
    simpl. intros [= <-]. simpl.
    apply andb_true_iff in Esp, Eac.
    destruct Esp as [E1 E2], Eac as [E3 E4].
    apply Z.leb_le in E1, E2, E3, E4.
    unfold in_ranges. simpl. repeat split; assumption.
Qed.

Lemma constructor_validates_witness :
  (50 <= 100000 <= 10000000 /\ 100000 <= 1000000 <= 10000000 /\
   __init__ "192.168.2.100" 10001 0 None 100000 1000000
     (mkMachine rail (fresh_link mute (always true) None))
   = Some (Ret tt
        (set_self (mkClient "192.168.2.100" 10001 0 None 100000 1000000
                            None [])
           (mkMachine rail (fresh_link mute (always true) None))))) /\
  (~ 50 <= 49 <= 10000000 /\
   exists st',
     __init__ "192.168.2.100" 10001 0 None 49 1000000
       (mkMachine rail (fresh_link mute (always true) None))
     = Some (Raise (ValueError "Speed value out of range") st') /\
     net st' = fresh_link mute (always true) None).
Proof.
  split.
  - split; [lia|]. split; [lia|].
    apply (proj1 (constructor_validates "192.168.2.100" 10001 0 None
                    100000 1000000
                    (mkMachine rail (fresh_link mute (always true) None))));
      lia.
  - split; [lia|].
    apply (proj1 (proj2 (constructor_validates "192.168.2.100" 10001 0 None
                           49 1000000
                           (mkMachine rail
                              (fresh_link mute (always true) None))))).
    lia.
Defined.

(** ** What the commands leave alone *)

Lemma keeps_set_position (fuel : nat) (value : pyval) :
  keeps (set_position fuel value).
Proof.
  unfold set_position. pose proof (keeps_send_command fuel) as Hsend.
  apply keeps_bind.
  - destruct value as [z | b | f | s |]; auto with frame.
    destruct (int_of_float f); auto with frame.
  - intros v. apply keeps_bind; [auto with frame|]. intros lo.
    apply keeps_bind; [auto with frame|]. intros hi.
    destruct (lo <=? int_value v); [|auto with frame].
    destruct hi as [hi|]; [|auto with frame].
    destruct (int_value v <=? hi); auto with frame.
Qed.

Lemma keeps_get_position (fuel : nat) : keeps (get_position fuel).
Proof.
  unfold get_position, response.
  pose proof (keeps_send_command fuel (lit "TP")). frame.
Qed.

Lemma keeps_disconnect (fuel : nat) : keeps (disconnect fuel).
Proof.
  unfold disconnect.
  pose proof (keeps_send_command fuel (lit "PQ")). frame.
Qed.

Lemma keeps_for_each {A} (xs : list A) (body : A -> M unit) :
  (forall x, keeps (body x)) -> keeps (for_each xs body).
Proof.
  intros Hb. induction xs as [|x xs IH]; simpl.
  - auto with frame.
  - apply keeps_bind; [apply Hb | intros _; exact IH].
Qed.

(** Setting the speed to the stored speed changes no setting. *)
Lemma keeps_reapply_speed (fuel : nat) :
  keeps (sp <- attr speed ;; set_speed fuel sp false).
Proof.
  intros st r. unfold bind at 1, attr at 1, set_speed.
  destruct ((50 <=? speed (self st)) && (speed (self st) <=? 10000000)).
  - unfold bind, assign. simpl. intros Hr.
    apply keeps_send_command in Hr. simpl in Hr.
    unfold same_settings in *. simpl in Hr. exact Hr.
  - intros [= <-]. apply same_settings_refl.
Qed.

Lemma keeps_reapply_acceleration (fuel : nat) :
  keeps (ac <- attr acceleration ;; set_acceleration fuel ac false).
Proof.
  intros st r. unfold bind at 1, attr at 1, set_acceleration.
  destruct ((100000 <=? acceleration (self st))
            && (acceleration (self st) <=? 10000000)).
  - unfold bind, assign. simpl. intros Hr.
    apply keeps_send_command in Hr. simpl in Hr.
    unfold same_settings in *. simpl in Hr. exact Hr.
  - intros [= <-]. apply same_settings_refl.
Qed.

Lemma keeps_initialize (fuel : nat) : keeps (initialize fuel).
Proof.
  unfold initialize. cbv zeta.
  apply keeps_bind.
  - apply keeps_for_each. intros cmd.
    pose proof (keeps_send_command fuel cmd). frame.
  - intros _. intros st r. unfold bind at 1, attr at 1. unfold bind at 1.
    destruct (set_speed fuel (speed (self st)) false st)
      as [[u s1 | e s1]|] eqn:E; try discriminate.
    + intros Hr.
      assert (K1 : same_settings (self st) (self s1)).
      { apply (keeps_reapply_speed fuel st (Ret u s1)).
        unfold bind, attr. exact E. }
      apply (same_settings_trans _ _ _ K1).
      exact (keeps_reapply_acceleration fuel s1 r Hr).
    + intros [= <-].
      apply (keeps_reapply_speed fuel st (Raise e s1)).
      unfold bind, attr. exact E.
Qed.

(** X3: however they end, [get_position], [jog_positive], [jog_negative],
    [power_on], [power_off], [disconnect], [initialize] and the exchange
    of any command leave the address, the limits, the speed, the
    acceleration and the socket attribute as they found them; in
    particular [disconnect] does not set the socket attribute back to
    [None] and [initialize] re-sends the stored speed and acceleration
    without changing them. *)
Theorem commands_keep_settings (fuel : nat) (st : machine)
    (r : outcome unit) :
  (forall command, send_command fuel command st = Some r ->
                   same_settings (self st) (self (final r))) /\
  (jog_positive fuel st = Some r ->
   same_settings (self st) (self (final r))) /\
  (jog_negative fuel st = Some r ->
   same_settings (self st) (self (final r))) /\
  (power_on fuel st = Some r -> same_settings (self st) (self (final r))) /\
  (power_off fuel st = Some r -> same_settings (self st) (self (final r))) /\
  (disconnect fuel st = Some r ->
   same_settings (self st) (self (final r))) /\
  (initialize fuel st = Some r ->
   same_settings (self st) (self (final r))) /\
  (forall a, get_position fuel st = Some a ->
             same_settings (self st) (self (final a))).
Proof.
  repeat apply conj.
  - intros command. apply keeps_send_command.
  - apply (keeps_send_command fuel (lit "JP")).
  - apply (keeps_send_command fuel (lit "JN")).
  - apply (keeps_send_command fuel (lit "PW")).
  - apply (keeps_send_command fuel (lit "PQ")).
  - apply keeps_disconnect.
  - apply keeps_initialize.
  - intros a. apply keeps_get_position.
Qed.

Lemma commands_keep_settings_witness :
  exists r,
    initialize 1
      (mkMachine rail (fresh_link (polite (lit ">")) (always true) None))
    = Some r /\
    same_settings rail (self (final r)).
Proof.
  destruct (initialize 1
              (mkMachine rail
                 (fresh_link (polite (lit ">")) (always true) None)))
    as [r|] eqn:E; [|vm_compute in E; discriminate E].
  exists r. split; [reflexivity|].
  exact (proj1 (proj2 (proj2 (proj2 (proj2 (proj2 (proj2
           (commands_keep_settings 1
              (mkMachine rail
                 (fresh_link (polite (lit ">")) (always true) None))
              r))))))) E).
Defined.

Lemma in_ranges_same_settings (c c' : client) :
  same_settings c c' -> in_ranges c -> in_ranges c'.
Proof.
  unfold same_settings, in_ranges.
  intros (_ & _ & _ & _ & Hs & Ha & _) [H1 H2].
  rewrite Hs, Ha. split; assumption.
Qed.

Lemma ranges_kept_refl (st : machine) : ranges_kept st st.
Proof. intros H. exact H. Qed.

Lemma ranges_kept_trans (a b c : machine) :
  ranges_kept a b -> ranges_kept b c -> ranges_kept a c.
Proof. unfold ranges_kept. auto. Qed.

Lemma keeps_ranges {A} (m : M A) : keeps m -> preserves ranges_kept m.
Proof.
  intros K st r Hr Hin. exact (in_ranges_same_settings _ _ (K _ _ Hr) Hin).
Qed.

Lemma set_speed_ranges (fuel : nat) (v : Z) (d : bool) :
  preserves ranges_kept (set_speed fuel v d).
Proof.
  intros st r. unfold set_speed, ranges_kept.
  destruct ((50 <=? v) && (v <=? 10000000)) eqn:Ev.
  - apply andb_true_iff in Ev. destruct Ev as [E1 E2].
    apply Z.leb_le in E1, E2.
    unfold bind, assign. intros Hr Hin.
    assert (Hv : in_ranges (with_speed v (self st))).
    { destruct Hin as [_ Ha]. split; simpl; [lia | exact Ha]. }
    destruct d; simpl in Hr.
    + injection Hr as <-. exact Hv.
    + apply keeps_send_command in Hr.
      exact (in_ranges_same_settings _ _ Hr Hv).
  - intros [= <-] Hin. exact Hin.
Qed.

Lemma set_acceleration_ranges (fuel : nat) (v : Z) (d : bool) :
  preserves ranges_kept (set_acceleration fuel v d).
Proof.
  intros st r. unfold set_acceleration, ranges_kept.
  destruct ((100000 <=? v) && (v <=? 10000000)) eqn:Ev.
  - apply andb_true_iff in Ev. destruct Ev as [E1 E2].
    apply Z.leb_le in E1, E2.
    unfold bind, assign. intros Hr Hin.
    assert (Hv : in_ranges (with_acceleration v (self st))).
    { destruct Hin as [Hs _]. split; simpl; [exact Hs | lia]. }
    destruct d; simpl in Hr.
    + injection Hr as <-. exact Hv.
    + apply keeps_send_command in Hr.
      exact (in_ranges_same_settings _ _ Hr Hv).
  - intros [= <-] Hin. exact Hin.
Qed.

(** An assignment to an attribute other than the two. *)
Lemma assign_ranges (g : client -> client) :
  (forall c, speed (g c) = speed c) ->
  (forall c, acceleration (g c) = acceleration c) ->
  preserves ranges_kept (assign g).
Proof.
  intros Hs Ha st r [= <-] [H1 H2]. unfold in_ranges. simpl.
  rewrite Hs, Ha. split; assumption.
Qed.

Lemma init_ranges (ip : string) (p l : Z) (r : option Z) (sp ac : Z) :
  preserves ranges_kept (__init__ ip p l r sp ac).
Proof.
  unfold __init__.
  repeat (apply preserves_bind; [exact ranges_kept_trans | | intros _]);
    try (apply assign_ranges; reflexivity).
  - apply set_speed_ranges.
  - apply set_acceleration_ranges.
Qed.

Lemma connect_ranges (fuel fd : nat) (o : connect_outcome) :
  preserves ranges_kept (connect fuel fd o).
Proof.
  unfold connect.
  apply preserves_bind; [exact ranges_kept_trans | | intros _].
  - intros st r [= <-] Hin. exact Hin.
  - apply preserves_bind; [exact ranges_kept_trans | | intros _].
    + apply preserves_with_socket; [exact ranges_kept_refl|].
      intros st r. cbv beta zeta.
      destruct (sock_closed (net st)); [intros [= <-] Hin; exact Hin|].
      destruct o; intros [= <-] Hin; exact Hin.
    + apply keeps_ranges. apply keeps_initialize.
Qed.

Lemma keeps_center_position : keeps center_position.
Proof.
  unfold center_position. frame. destruct a0; auto with frame.
Qed.

(** X2: once the stored speed and acceleration are within their ranges
    they stay there, whatever method of the class is called, with whatever
    arguments, and however the call ends: the setters, which alone write
    the two attributes, store only values they accepted.  This holds for
    the constructor run again on the object and for [connect] too. *)
Theorem settings_stay_in_range (fuel : nat) (st : machine) :
  in_ranges (self st) ->
  (forall ip p l r sp ac o, __init__ ip p l r sp ac st = Some o ->
                            in_ranges (self (final o))) /\
  (forall fd c o, connect fuel fd c st = Some o ->
                  in_ranges (self (final o))) /\
  (forall o, initialize fuel st = Some o -> in_ranges (self (final o))) /\
  (forall o, disconnect fuel st = Some o -> in_ranges (self (final o))) /\
  (forall command o, send_command fuel command st = Some o ->
                     in_ranges (self (final o))) /\
  (forall o, clear_buffer fuel st = Some o -> in_ranges (self (final o))) /\
  (forall o, read_response st = Some o -> in_ranges (self (final o))) /\
  (forall o, response st = Some o -> in_ranges (self (final o))) /\
  (forall v d o, set_speed fuel v d st = Some o ->
                 in_ranges (self (final o))) /\
  (forall o, get_speed st = Some o -> in_ranges (self (final o))) /\
  (forall v d o, set_acceleration fuel v d st = Some o ->
                 in_ranges (self (final o))) /\
  (forall o, get_acceleration st = Some o -> in_ranges (self (final o))) /\
  (forall v o, set_position fuel v st = Some o ->
               in_ranges (self (final o))) /\
  (forall o, get_position fuel st = Some o -> in_ranges (self (final o))) /\
  (forall o, jog_positive fuel st = Some o -> in_ranges (self (final o))) /\
  (forall o, jog_negative fuel st = Some o -> in_ranges (self (final o))) /\
  (forall o, power_on fuel st = Some o -> in_ranges (self (final o))) /\
  (forall o, power_off fuel st = Some o -> in_ranges (self (final o))) /\
  (forall o, center_position st = Some o -> in_ranges (self (final o))) /\
  (forall o, min_position st = Some o -> in_ranges (self (final o))) /\
  (forall o, max_position st = Some o -> in_ranges (self (final o))) /\
  (forall v o, set_min_position v st = Some o ->
               in_ranges (self (final o))) /\
  (forall v o, set_max_position v st = Some o ->
               in_ranges (self (final o))).
Proof.
  intros Hin.
  assert (K : forall A (m : M A) o,
            preserves ranges_kept m -> m st = Some o ->
            in_ranges (self (final o))).
  { intros A m o P Hr. exact (P st o Hr Hin). }
  repeat apply conj.
  - intros ip p l r sp ac o. apply K. apply init_ranges.
  - intros fd c o. apply K. apply connect_ranges.
  - intros o. apply K, keeps_ranges, keeps_initialize.
  - intros o. apply K, keeps_ranges, keeps_disconnect.
  - intros command o. apply K, keeps_ranges, keeps_send_command.
  - intros o. apply K, keeps_ranges, keeps_clear_buffer.
  - intros o. apply K, keeps_ranges, keeps_read_response.
  - intros o. apply K, keeps_ranges. unfold response. apply keeps_attr.
  - intros v d o. apply K, set_speed_ranges.
  - intros o. apply K, keeps_ranges. unfold get_speed. apply keeps_attr.
  - intros v d o. apply K, set_acceleration_ranges.
  - intros o. apply K, keeps_ranges. unfold get_acceleration.
    apply keeps_attr.
  - intros v o. apply K, keeps_ranges, keeps_set_position.
  - intros o. apply K, keeps_ranges, keeps_get_position.
  - intros o. apply K, keeps_ranges. apply (keeps_send_command _ (lit "JP")).
  - intros o. apply K, keeps_ranges. apply (keeps_send_command _ (lit "JN")).
  - intros o. apply K, keeps_ranges. apply (keeps_send_command _ (lit "PW")).
  - intros o. apply K, keeps_ranges. apply (keeps_send_command _ (lit "PQ")).
  - intros o. apply K, keeps_ranges, keeps_center_position.
  - intros o. apply K, keeps_ranges. unfold min_position. apply keeps_attr.
  - intros o. apply K, keeps_ranges. unfold max_position. apply keeps_attr.
  - intros v o. apply K. apply assign_ranges; reflexivity.
  - intros v o. apply K. apply assign_ranges; reflexivity.
Qed.

Lemma settings_stay_in_range_witness :
  in_ranges rail /\
  (exists o,
     set_speed 1 10000001 false
       (mkMachine rail (fresh_link (polite (lit ">")) (always true) None))
     = Some o /\
     in_ranges (self (final o))) /\
  (exists o,
     __init__ "192.168.2.100" 10001 0 None 49 1000000
       (mkMachine rail (fresh_link (polite (lit ">")) (always true) None))
     = Some o /\
     in_ranges (self (final o))).
Proof.
  assert (Hin : in_ranges rail) by (unfold in_ranges; simpl; lia).
  pose proof (settings_stay_in_range 1
                (mkMachine rail
                   (fresh_link (polite (lit ">")) (always true) None))
                Hin) as (Hinit & _ & _ & _ & _ & _ & _ & _ & Hsp & _).
  split; [exact Hin|]. split.
  - eexists. split; [reflexivity|].
    exact (Hsp 10000001 false _ eq_refl).
  - eexists. split; [reflexivity|].
    exact (Hinit "192.168.2.100"%string 10001 0 None 49 1000000 _ eq_refl).
Defined.

(** ** Before the connection *)

Lemma send_command_no_socket (fuel : nat) (command : str) (st : machine) :
  socket (self st) = None ->
  send_command fuel command st = Some (Raise AttributeError st).
Proof.
  intros Hs. unfold send_command. apply bind_raise_eq.
  unfold getblocking, with_socket. rewrite Hs. reflexivity.
Qed.

(** X4: on a client that holds no socket (never connected) every command
    fails with [AttributeError] at its first access to the socket: nothing
    is sent, read or slept and the state is untouched.  The setters differ
    in one respect: an accepted speed or acceleration has been stored
    before the exchange is attempted, so the call raises with the new
    value in place. *)
Theorem commands_need_a_socket (fuel : nat) (st : machine) :
  socket (self st) = None ->
  (forall command,
     send_command fuel command st = Some (Raise AttributeError st)) /\
  get_position fuel st = Some (Raise AttributeError st) /\
  jog_positive fuel st = Some (Raise AttributeError st) /\
  jog_negative fuel st = Some (Raise AttributeError st) /\
  power_on fuel st = Some (Raise AttributeError st) /\
  power_off fuel st = Some (Raise AttributeError st) /\
  disconnect fuel st = Some (Raise AttributeError st) /\
  initialize fuel st = Some (Raise AttributeError st) /\
  (forall v r, limit_right (self st) = Some r ->
               limit_left (self st) <= v <= r ->
               set_position fuel (PInt v) st
               = Some (Raise AttributeError st)) /\
  (forall v, 50 <= v <= 10000000 ->
             set_speed fuel v false st
             = Some (Raise AttributeError
                       (set_self (with_speed v (self st)) st))) /\
  (forall v, 100000 <= v <= 10000000 ->
             set_acceleration fuel v false st
             = Some (Raise AttributeError
                       (set_self (with_acceleration v (self st)) st))).
Proof.
  intros Hs. repeat apply conj.
  - intros command. exact (send_command_no_socket _ _ _ Hs).
  - unfold get_position. apply bind_raise_eq.
    exact (send_command_no_socket _ _ _ Hs).
  - exact (send_command_no_socket _ _ _ Hs).
  - exact (send_command_no_socket _ _ _ Hs).
  - exact (send_command_no_socket _ _ _ Hs).
  - exact (send_command_no_socket _ _ _ Hs).
  - unfold disconnect. apply bind_raise_eq.
    exact (send_command_no_socket _ _ _ Hs).
  - unfold initialize. cbn [for_each]. apply bind_raise_eq.
    apply bind_raise_eq. apply bind_raise_eq.
    exact (send_command_no_socket _ _ _ Hs).
  - intros v r Hr Hv. unfold set_position, bind, ret, attr.
    rewrite Hr. simpl.
    destruct (Z.leb_spec (limit_left (self st)) v); [|lia].
    destruct (Z.leb_spec v r); [|lia].
    exact (send_command_no_socket _ _ _ Hs).
  - intros v Hv. unfold set_speed. rewrite (in_range_true _ _ _ Hv).
    unfold bind at 1, assign. simpl.
    apply send_command_no_socket. exact Hs.
  - intros v Hv. unfold set_acceleration. rewrite (in_range_true _ _ _ Hv).
    unfold bind at 1, assign. simpl.
    apply send_command_no_socket. exact Hs.
Qed.

Lemma commands_need_a_socket_witness :
  socket offline = None /\
  50 <= 777 <= 10000000 /\
  set_speed 1 777 false
    (mkMachine offline (fresh_link (polite (lit ">")) (always true) None))
  = Some (Raise AttributeError
            (mkMachine (with_speed 777 offline)
               (fresh_link (polite (lit ">")) (always true) None))).
Proof.
  split; [reflexivity|]. split; [lia|].
  pose proof (commands_need_a_socket 1
                (mkMachine offline
                   (fresh_link (polite (lit ">")) (always true) None))
                eq_refl) as (_ & _ & _ & _ & _ & _ & _ & _ & _ & H & _).
  apply (H 777). lia.
Defined.

(** ** Every exit of an exchange *)

Lemma bind_inv {A B} (m : M A) (k : A -> M B) (st : machine)
    (r : outcome B) :
  bind m k st = Some r ->
  (exists e s, m st = Some (Raise e s) /\ r = Raise e s) \/
  (exists a s, m st = Some (Ret a s) /\ k a s = Some r).
Proof.
  unfold bind. destruct (m st) as [[a s | e s]|]; try discriminate.
  - intros H. right. exists a, s. split; [reflexivity | exact H].
  - intros [= <-]. left. exists e, s. split; reflexivity.
Qed.

Section UnchangedExchange.
Context {X : Type} (f : machine -> X).
Hypothesis f_timeout :
  forall t st, f (set_net (set_timeout t (net st)) st) = f st.
Hypothesis f_rx : forall st, f (set_net (next_rx (net st)) st) = f st.
Hypothesis f_print :
  forall st, f (set_net (count_print (net st)) st) = f st.

Lemma unchanged_clear_buffer (fuel : nat) :
  preserves (unchanged f) (clear_buffer fuel).
Proof.
  unfold clear_buffer.
  apply preserves_bind; [exact (unchanged_trans f) | |].
  - apply unchanged_settimeout. apply f_timeout.
  - intros _. apply preserves_try_finally; [exact (unchanged_trans f) | |].
    + apply preserves_try_except; [exact (unchanged_trans f) | |].
      * apply unchanged_clear_buffer_loop. exact f_rx.
      * intros e. apply preserves_ret. exact (unchanged_refl f).
    + apply unchanged_settimeout. apply f_timeout.
Qed.

Hypothesis f_response :
  forall r st, f (set_self (with_last_response r (self st)) st) = f st.

(** What follows the send in [send_command]. *)
Lemma unchanged_after_send (original : bool) :
  preserves (unchanged f)
    (r <- read_response ;;
     assign (with_last_response r) ;;
     setblocking original).
Proof.
  apply preserves_bind; [exact (unchanged_trans f) | |].
  - apply unchanged_read_response; assumption.
  - intros r. apply preserves_bind; [exact (unchanged_trans f) | |].
    + apply unchanged_assign. apply f_response.
    + intros _. apply unchanged_settimeout. apply f_timeout.
Qed.

Hypothesis f_tx : forall st, f (set_net (next_tx (net st)) st) = f st.
Hypothesis f_sent :
  forall data st,
    f (set_net (log (Sent data) (next_tx (net st))) st) = f st.

Lemma unchanged_send_command (fuel : nat) (command : str) :
  preserves (unchanged f) (send_command fuel command).
Proof.
  unfold send_command.
  apply preserves_bind; [exact (unchanged_trans f) | |].
  - apply unchanged_getblocking.
  - intros original.
    apply preserves_bind; [exact (unchanged_trans f) | |].
    + apply unchanged_settimeout. apply f_timeout.
    + intros _. apply preserves_bind; [exact (unchanged_trans f) | |].
      * apply unchanged_clear_buffer.
      * intros _. cbv zeta. destruct (encode (command ++ [CR])).
        -- apply preserves_bind; [exact (unchanged_trans f) | |].
           ++ apply unchanged_sendall; [apply f_tx | apply f_sent].
           ++ intros _. apply unchanged_after_send.
        -- apply preserves_raise. exact (unchanged_refl f).
Qed.
End UnchangedExchange.

(** X6: whatever the peer does and however it ends, one call of
    [send_command] calls [sendall] at most once, without retry.  Either no
    send takes place; or one send completes, and it is that of the encoded
    command with its carriage return; or one send fails and the call
    raises [OSError], in which case the trace, a record of completed
    calls, gains nothing (a part of the command may have gone out).  The
    call never sleeps and never closes the socket. *)
Theorem send_command_sends_at_most_once (fuel : nat) (command : str)
    (st : machine) (r : outcome unit) :
  send_command fuel command st = Some r ->
  ((trace (net (final r)) = trace (net st) /\
    tx_pos (net (final r)) = tx_pos (net st)) \/
   (exists payload,
      encode (command ++ [CR]) = Some payload /\
      trace (net (final r)) = trace (net st) ++ [Sent payload] /\
      tx_pos (net (final r)) = S (tx_pos (net st))) \/
   (exists s,
      r = Raise OSError s /\
      trace (net (final r)) = trace (net st) /\
      tx_pos (net (final r)) = S (tx_pos (net st)))) /\
  sock_closed (net (final r)) = sock_closed (net st).
Proof.
  intros H. split.
  - assert (Same : forall s, send_record s = send_record st ->
                     trace (net s) = trace (net st) /\
                     tx_pos (net s) = tx_pos (net st)).
    { unfold send_record. intros s [= E1 E2]. split; assumption. }
    unfold send_command in H.
    apply bind_inv in H.
    destruct H as [(e & s & Hm & ->) | (orig & s1 & Hm & H)].
    { left. apply Same.
      exact (unchanged_getblocking send_record _ _ Hm). }
    pose proof (unchanged_getblocking send_record _ _ Hm) as T1.
    unfold unchanged in T1. simpl final in T1.
    apply bind_inv in H.
    destruct H as [(e & s & Hm2 & ->) | (u2 & s2 & Hm2 & H)].
    { left. apply Same. rewrite <- T1.
      exact (unchanged_settimeout send_record _
               (fun _ => eq_refl) _ _ Hm2). }
    pose proof (unchanged_settimeout send_record _
                  (fun _ => eq_refl) _ _ Hm2) as T2.
    unfold unchanged in T2. simpl final in T2.
    apply bind_inv in H.
    destruct H as [(e & s & Hm3 & ->) | (u3 & s3 & Hm3 & H)].
    { left. apply Same. rewrite <- T1, <- T2.
      exact (unchanged_clear_buffer send_record
               (fun _ _ => eq_refl) (fun _ => eq_refl) _ _ _ Hm3). }
    pose proof (unchanged_clear_buffer send_record
                  (fun _ _ => eq_refl) (fun _ => eq_refl) _ _ _ Hm3) as T3.
    unfold unchanged in T3. simpl final in T3.
    assert (T : send_record s3 = send_record st) by congruence.
    destruct (Same s3 T) as [Tr Tx].
    cbv zeta in H.
    destruct (encode (command ++ [CR])) as [payload|] eqn:Henc.
    2:{ injection H as <-. left. split; assumption. }
    apply bind_inv in H.
    destruct H as [(e & s & Hm4 & ->) | (u4 & s4 & Hm4 & H)].
    { revert Hm4. unfold sendall, with_socket.
      destruct (socket (self s3));
        [|intros [= _ <-]; left; split; assumption].
      cbv beta zeta.
      destruct (sock_closed (net s3));
        [intros [= _ <-]; left; split; assumption|].
      destruct (tx (net s3) (tx_pos (net s3))); [discriminate|].
      intros [= <- <-]. right. right. eexists.
      split; [reflexivity|]. simpl. split; [exact Tr|].
      rewrite Tx. reflexivity. }
    right. left. exists payload. split; [reflexivity|].
    pose proof (unchanged_after_send send_record
                  (fun _ _ => eq_refl) (fun _ => eq_refl) (fun _ => eq_refl)
                  (fun _ _ => eq_refl) orig _ _ H) as T5.
    unfold unchanged, send_record in T5. injection T5 as T5a T5b.
    rewrite T5a, T5b.
    revert Hm4. unfold sendall, with_socket.
    destruct (socket (self s3)); [|discriminate].
    cbv beta zeta.
    destruct (sock_closed (net s3)); [discriminate|].
    destruct (tx (net s3) (tx_pos (net s3))); [|discriminate].
    intros E. injection E as _ E4. rewrite <- E4. simpl.
    rewrite Tr, Tx. split; reflexivity.
  - exact (unchanged_send_command (fun st => sock_closed (net st))
             (fun _ _ => eq_refl) (fun _ => eq_refl) (fun _ => eq_refl)
             (fun _ _ => eq_refl) (fun _ => eq_refl) (fun _ _ => eq_refl)
             fuel command st r H).
Qed.

Lemma send_command_sends_at_most_once_witness :
  exists r,
    send_command 1 (lit "JP")
      (mkMachine rail (fresh_link (polite [255%N]) (always true) None))
    = Some r /\
    trace (net (final r)) = [Sent (lit "JP" ++ [CR])] /\
    tx_pos (net (final r)) = 1%nat /\
    sock_closed (net (final r)) = false.
Proof.
  destruct (send_command 1 (lit "JP")
              (mkMachine rail
                 (fresh_link (polite [255%N]) (always true) None)))
    as [r|] eqn:E; [|vm_compute in E; discriminate E].
  exists r. split; [reflexivity|].
  destruct (send_command_sends_at_most_once 1 (lit "JP") _ r E)
    as [[[T X] | [(payload & Hp & T & X) | (s & -> & T & X)]] C].
  - exfalso. vm_compute in E. injection E as <-. discriminate T.
  - split; [|split; [exact X | exact C]]. rewrite T.
    injection Hp as <-. reflexivity.
  - exfalso. vm_compute in E. discriminate E.
Defined.

Lemma getblocking_live (h : handle) (st : machine) :
  socket (self st) = Some h ->
  getblocking st = Some (Ret (blocking (net st)) st).
Proof.
  intros Hs. unfold getblocking, with_socket, blocking. rewrite Hs.
  reflexivity.
Qed.

Lemma settimeout_live (h : handle) (st : machine) (t : option Z) :
  liveness st = (Some h, false) ->
  settimeout t st = Some (Ret tt (set_net (set_timeout t (net st)) st)).
Proof.
  unfold liveness. intros [= Hs Hc]. unfold settimeout, with_socket.
  rewrite Hs, Hc. reflexivity.
Qed.

(** On a live socket every exit of [clear_buffer] leaves the socket without
    timeout. *)
Lemma clear_buffer_resets_timeout (h : handle) (fuel : nat) (st : machine)
    (r : outcome unit) :
  liveness st = (Some h, false) ->
  clear_buffer fuel st = Some r ->
  sock_timeout (net (final r)) = None.
Proof.
  intros Hl H. unfold clear_buffer in H.
  rewrite (bind_ret_eq _ _ _ _ _ (settimeout_live h st (Some 100) Hl)) in H.
  set (s1 := set_net (set_timeout (Some 100) (net st)) st) in H.
  assert (Hl1 : liveness s1 = (Some h, false)) by exact Hl.
  unfold try_finally in H.
  destruct (try_except (clear_buffer_loop fuel) is_socket_timeout
              (fun _ => ret tt) s1) as [rb|] eqn:Eb; [|discriminate].
  assert (Hb : liveness (final rb) = (Some h, false)).
  { rewrite <- Hl1.
    refine (preserves_try_except (unchanged liveness)
              (unchanged_trans liveness) _ _ _ _ _ s1 rb Eb).
    - apply unchanged_clear_buffer_loop. reflexivity.
    - intros e. apply preserves_ret. exact (unchanged_refl liveness). }
  destruct rb as [a sb | e sb]; simpl in Hb;
    rewrite (settimeout_live h sb None Hb) in H;
    injection H as <-; reflexivity.
Qed.

(** X5: on a connected, open socket every exit of [send_command] leaves
    the socket without timeout, except the normal return of a call that
    found it non-blocking, which leaves it non-blocking.  So the timeout
    in force afterwards is never the 0.1 s of the drain, and a timeout the
    caller had set is not kept: the blocking flag alone is restored. *)
Theorem send_command_final_timeout (h : handle) (fuel : nat)
    (command : str) (st : machine) (r : outcome unit) :
  socket (self st) = Some h -> sock_closed (net st) = false ->
  send_command fuel command st = Some r ->
  sock_timeout (net (final r))
  = match r with
    | Ret _ _ => if blocking (net st) then None else Some 0
    | Raise _ _ => None
    end.
Proof.
  intros Hs Hc H.
  assert (Hl : liveness st = (Some h, false)).
  { unfold liveness. rewrite Hs, Hc. reflexivity. }
  unfold send_command in H.
  rewrite (bind_ret_eq _ _ _ _ _ (getblocking_live h st Hs)) in H.
  unfold setblocking at 1 in H.
  rewrite (bind_ret_eq _ _ _ _ _ (settimeout_live h st None Hl)) in H.
  set (s1 := set_net (set_timeout None (net st)) st) in H.
  assert (Hl1 : liveness s1 = (Some h, false)) by exact Hl.
  apply bind_inv in H.
  destruct H as [(e & s & Hm & ->) | (u & s3 & Hm & H)].
  { exact (clear_buffer_resets_timeout h fuel s1 _ Hl1 Hm). }
  pose proof (clear_buffer_resets_timeout h fuel s1 _ Hl1 Hm) as T3.
  simpl in T3.
  assert (Hl3 : liveness s3 = (Some h, false)).
  { rewrite <- Hl1.
    exact (unchanged_clear_buffer liveness (fun _ _ => eq_refl)
             (fun _ => eq_refl) fuel s1 _ Hm). }
  cbv zeta in H.
  destruct (encode (command ++ [CR])) as [payload|].
  2:{ injection H as <-. exact T3. }
  apply bind_inv in H.
  destruct H as [(e & s & Hm4 & ->) | (u4 & s4 & Hm4 & H)].
  { simpl. rewrite <- T3.
    exact (unchanged_sendall (fun st => sock_timeout (net st)) payload
             (fun _ => eq_refl) (fun _ => eq_refl) s3 _ Hm4). }
  assert (T4 : sock_timeout (net s4) = None).
  { rewrite <- T3.
    exact (unchanged_sendall (fun st => sock_timeout (net st)) payload
             (fun _ => eq_refl) (fun _ => eq_refl) s3 _ Hm4). }
  assert (Hl4 : liveness s4 = (Some h, false)).
  { rewrite <- Hl3.
    exact (unchanged_sendall liveness payload
             (fun _ => eq_refl) (fun _ => eq_refl) s3 _ Hm4). }
  apply bind_inv in H.
  destruct H as [(e & s & Hm5 & ->) | (a5 & s5 & Hm5 & H)].
  { simpl. rewrite <- T4.
    exact (unchanged_read_response (fun st => sock_timeout (net st))
             (fun _ => eq_refl) (fun _ => eq_refl) s4 _ Hm5). }
  assert (Hl5 : liveness s5 = (Some h, false)).
  { rewrite <- Hl4.
    exact (unchanged_read_response liveness
             (fun _ => eq_refl) (fun _ => eq_refl) s4 _ Hm5). }
  unfold bind at 1, assign at 1 in H. unfold setblocking in H.
  rewrite (settimeout_live h) in H by exact Hl5.
  injection H as <-. simpl.
  destruct (blocking (net st)); reflexivity.
Qed.

Lemma send_command_final_timeout_witness :
  socket rail = Some (Sock 3) /\
  exists r,
    send_command 1 (lit "TP")
      (mkMachine rail (fresh_link (polite (lit ">")) (always true)
                                  (Some 5000)))
    = Some r /\
    sock_timeout (net (final r)) = None.
Proof.
  split; [reflexivity|].
  destruct (send_command 1 (lit "TP")
              (mkMachine rail
                 (fresh_link (polite (lit ">")) (always true) (Some 5000))))
    as [r|] eqn:E; [|vm_compute in E; discriminate E].
  exists r. split; [reflexivity|].
  rewrite (send_command_final_timeout (Sock 3) 1 (lit "TP")
             (mkMachine rail
                (fresh_link (polite (lit ">")) (always true) (Some 5000)))
             r eq_refl eq_refl E).
  destruct r; reflexivity.
Defined.

(** ** When the exchange does not go through *)

Lemma bind_none_eq {A B} (m : M A) (k : A -> M B) (st : machine) :
  m st = None -> bind m k st = None.
Proof. intros E. unfold bind. rewrite E. reflexivity. Qed.

Lemma clear_buffer_loop_short (h : handle) (c : client) (fuel : nat) :
  forall (w : world),
    socket c = Some h -> sock_closed w = false ->
    (forall i, (i < fuel)%nat -> flows (rx w (rx_pos w + i)%nat) = true) ->
    clear_buffer_loop fuel (mkMachine c w) = None.
Proof.
  induction fuel as [|fuel IH]; intros w Hs Hc Hall; simpl.
  - reflexivity.
  - pose proof (Hall 0%nat ltac:(lia)) as H0. rewrite Nat.add_0_r in H0.
    destruct (rx w (rx_pos w)) as [[|b bs]| |] eqn:Hrx; try discriminate H0.
    unfold bind at 1. rewrite (recv_chunk h c w b bs Hs Hc Hrx).
    cbv beta iota.
    apply IH; try assumption.
    intros i Hi. simpl.
    replace (rx_pos w + 1 + i)%nat with (rx_pos w + S i)%nat by lia.
    apply Hall. lia.
Qed.

Lemma clear_buffer_short (h : handle) (c : client) (w : world)
    (fuel k : nat) :
  socket c = Some h -> sock_closed w = false ->
  stops_at (rx w) (rx_pos w) k -> (fuel <= k)%nat ->
  clear_buffer fuel (mkMachine c w) = None.
Proof.
  intros Hs Hc [Hlt _] Hfuel. unfold clear_buffer.
  rewrite (bind_ret_eq _ _ _ _ _ (settimeout_eq h c w (Some 100) Hs Hc)).
  unfold try_finally, try_except.
  rewrite (clear_buffer_loop_short h c fuel); try assumption.
  - reflexivity.
  - intros i Hi. apply Hlt. lia.
Qed.

(** The exchange up to the moment the command has gone out. *)
Lemma send_command_until_sent (h : handle) (c : client) (w : world)
    (fuel k : nat) (command : str) (payload : bytes) :
  socket c = Some h -> sock_closed w = false ->
  stops_at (rx w) (rx_pos w) k -> (k < fuel)%nat ->
  rx w (rx_pos w + k)%nat <> Failure ->
  encode (command ++ [CR]) = Some payload ->
  tx w (tx_pos w) = true ->
  send_command fuel command (mkMachine c w)
  = (r <- read_response ;;
     assign (with_last_response r) ;;
     setblocking (blocking w))
      (mkMachine c
         (log (Sent payload) (next_tx (set_timeout None (skip_rx (S k) w))))).
Proof.
  intros Hs Hc Hstop Hfuel Hnf Henc Htx.
  unfold send_command.
  rewrite (bind_ret_eq _ _ _ _ _ (getblocking_eq h c w Hs)).
  unfold setblocking at 1.
  rewrite (bind_ret_eq _ _ _ _ _ (settimeout_eq h c w None Hs Hc)).
  assert (Hclear : clear_buffer fuel (mkMachine c (set_timeout None w))
                   = Some (Ret tt (mkMachine c
                       (set_timeout None (skip_rx (S k) w))))).
  { rewrite (clear_buffer_stops h c _ fuel k); simpl; try assumption.
    destruct (rx w (rx_pos w + k)%nat); try reflexivity. contradiction. }
  rewrite (bind_ret_eq _ _ _ _ _ Hclear). rewrite Henc.
  rewrite (bind_ret_eq _ _ _ (mkMachine c
             (log (Sent payload)
                (next_tx (set_timeout None (skip_rx (S k) w))))) tt).
  - reflexivity.
  - rewrite (sendall_eq h c); simpl; try assumption.
    rewrite Htx. reflexivity.
Qed.

(** X7: when the device stays silent after the command has been sent,
    [send_command] does not return, whatever the fuel: the read of the
    answer waits on a socket without timeout. *)
Theorem send_command_waits_forever (h : handle) (c : client) (w : world)
    (k : nat) (command : str) (payload : bytes) :
  socket c = Some h -> sock_closed w = false ->
  stops_at (rx w) (rx_pos w) k ->
  rx w (rx_pos w + k)%nat <> Failure ->
  encode (command ++ [CR]) = Some payload ->
  tx w (tx_pos w) = true ->
  rx w (rx_pos w + S k)%nat = Silence ->
  forall fuel, send_command fuel command (mkMachine c w) = None.
Proof.
  intros Hs Hc Hstop Hnf Henc Htx Hsil fuel.
  destruct (Nat.le_gt_cases fuel k) as [Hle | Hgt].
  - unfold send_command.
    rewrite (bind_ret_eq _ _ _ _ _ (getblocking_eq h c w Hs)).
    unfold setblocking at 1.
    rewrite (bind_ret_eq _ _ _ _ _ (settimeout_eq h c w None Hs Hc)).
    apply bind_none_eq.
    apply (clear_buffer_short h c _ fuel k); assumption.
  - rewrite (send_command_until_sent h c w fuel k command payload);
      try assumption.
    apply bind_none_eq.
    rewrite (read_response_meets h c); simpl; try assumption.
    replace (S (rx_pos w + k)) with (rx_pos w + S k)%nat by lia.
    rewrite Hsil. reflexivity.
Qed.

Lemma send_command_waits_forever_witness :
  mute 1%nat = Silence /\
  forall fuel,
    send_command fuel (lit "TP")
      (mkMachine rail (fresh_link mute (always true) None))
    = None.
Proof.
  split; [reflexivity|].
  refine (send_command_waits_forever (Sock 3) rail
            (fresh_link mute (always true) None) 0 (lit "TP")
            (lit "TP" ++ [CR]) eq_refl eq_refl _ _ eq_refl eq_refl eq_refl).
  - split; [intros i Hi; inversion Hi | reflexivity].
  - discriminate.
Defined.

(** X8: when the bytes that answer a command are not valid UTF-8,
    [send_command] raises [UnicodeDecodeError] after the command has gone
    out: [last_response] keeps its old value, and the socket is left
    without timeout whatever mode it was found in. *)
Theorem send_command_undecodable_answer (h : handle) (c : client)
    (w : world) (fuel k : nat) (command : str) (payload bs : bytes) :
  socket c = Some h -> sock_closed w = false ->
  stops_at (rx w) (rx_pos w) k -> (k < fuel)%nat ->
  rx w (rx_pos w + k)%nat <> Failure ->
  encode (command ++ [CR]) = Some payload ->
  tx w (tx_pos w) = true ->
  rx w (rx_pos w + S k)%nat = Data bs ->
  decode (firstn 1024 bs) = None ->
  send_command fuel command (mkMachine c w)
  = Some (Raise UnicodeDecodeError
            (mkMachine c
               (mkWorld None (sock_closed w) (rx w) (rx_pos w + S (S k))%nat
                        (tx w) (S (tx_pos w)) (trace w ++ [Sent payload])
                        (printed w)))).
Proof.
  intros Hs Hc Hstop Hfuel Hnf Henc Htx Hrx Hdec.
  rewrite (send_command_until_sent h c w fuel k command payload);
    try assumption.
  apply bind_raise_eq.
  rewrite (read_response_meets h c); simpl; try assumption.
  replace (S (rx_pos w + k)) with (rx_pos w + S k)%nat by lia.
  rewrite Hrx, Hdec.
  unfold next_rx, log, next_tx, set_timeout, skip_rx. simpl.
  replace (S (rx_pos w + S k)) with (rx_pos w + S (S k))%nat by lia.
  reflexivity.
Qed.

Lemma send_command_undecodable_answer_witness :
  decode (firstn 1024 [255%N]) = None /\
  send_command 1 (lit "TP")
    (mkMachine rail (fresh_link (polite [255%N]) (always true) (Some 0)))
  = Some (Raise UnicodeDecodeError
            (mkMachine rail
               (mkWorld None false (polite [255%N]) 2 (always true) 1
                        [Sent (lit "TP" ++ [CR])] 0))).
Proof.
  split; [reflexivity|].
  refine (send_command_undecodable_answer (Sock 3) rail
            (fresh_link (polite [255%N]) (always true) (Some 0)) 1 0
            (lit "TP") (lit "TP" ++ [CR]) [255%N]
            eq_refl eq_refl _ _ _ eq_refl eq_refl eq_refl eq_refl).
  - split; [intros i Hi; inversion Hi | reflexivity].
  - constructor.
  - discriminate.
Defined.

Lemma send_command_stops_at_failed_drain (h : handle) (c : client)
    (w : world) (fuel k : nat) (command : str) :
  socket c = Some h -> sock_closed w = false ->
  stops_at (rx w) (rx_pos w) k -> (k < fuel)%nat ->
  rx w (rx_pos w + k)%nat = Failure ->
  send_command fuel command (mkMachine c w)
  = Some (Raise OSError
            (mkMachine c
               (mkWorld None (sock_closed w) (rx w) (rx_pos w + S k)%nat
                        (tx w) (tx_pos w) (trace w) (printed w)))).
Proof.
  intros Hs Hc Hstop Hfuel Hf.
  unfold send_command.
  rewrite (bind_ret_eq _ _ _ _ _ (getblocking_eq h c w Hs)).
  unfold setblocking at 1.
  rewrite (bind_ret_eq _ _ _ _ _ (settimeout_eq h c w None Hs Hc)).
  apply bind_raise_eq.
  rewrite (clear_buffer_stops h c _ fuel k); simpl; try assumption.
  rewrite Hf. reflexivity.
Qed.

(** X9: when the transport fails while the buffer is drained,
    [send_command] raises [OSError] before anything is sent: the command
    does not go out, no answer is read, [last_response] keeps its value,
    and the socket is left without timeout. *)
Theorem send_command_drain_failure (h : handle) (c : client) (w : world)
    (fuel k : nat) (command : str) :
  socket c = Some h -> sock_closed w = false ->
  stops_at (rx w) (rx_pos w) k -> (k < fuel)%nat ->
  rx w (rx_pos w + k)%nat = Failure ->
  send_command fuel command (mkMachine c w)
  = Some (Raise OSError
            (mkMachine c
               (mkWorld None (sock_closed w) (rx w) (rx_pos w + S k)%nat
                        (tx w) (tx_pos w) (trace w) (printed w)))).
Proof.
  intros Hs Hc Hstop Hfuel Hf.
  unfold send_command.
  rewrite (bind_ret_eq _ _ _ _ _ (getblocking_eq h c w Hs)).
  unfold setblocking at 1.
  rewrite (bind_ret_eq _ _ _ _ _ (settimeout_eq h c w None Hs Hc)).
  apply bind_raise_eq.
  rewrite (clear_buffer_stops h c _ fuel k); simpl; try assumption.
  rewrite Hf. reflexivity.
Qed.

Lemma send_command_drain_failure_witness :
  no_peer_rx 0%nat = Failure /\
  send_command 1 (lit "TP")
    (mkMachine rail (fresh_link no_peer_rx (always true) None))
  = Some (Raise OSError
            (mkMachine rail
               (mkWorld None false no_peer_rx 1 (always true) 0 [] 0))).
Proof.
  split; [reflexivity|].
  refine (send_command_drain_failure (Sock 3) rail
            (fresh_link no_peer_rx (always true) None) 1 0 (lit "TP")
            eq_refl eq_refl _ _ eq_refl).
  - split; [intros i Hi; inversion Hi | reflexivity].
  - constructor.
Defined.

(** ** After the socket is closed *)

Lemma send_command_closed (h : handle) (fuel : nat) (command : str)
    (st : machine) :
  socket (self st) = Some h -> sock_closed (net st) = true ->
  send_command fuel command st
  = Some (Raise OSError (set_net (set_timeout None (net st)) st)).
Proof.
  intros Hs Hc. unfold send_command.
  rewrite (bind_ret_eq _ _ _ _ _ (getblocking_live h st Hs)).
  apply bind_raise_eq.
  unfold setblocking, settimeout, with_socket. rewrite Hs, Hc. reflexivity.
Qed.

(** X11: once the socket is closed, every command fails with [OSError] at
    the first switch of the blocking mode: nothing is sent, read or slept,
    no attribute changes, and [disconnect] does not reach [close] a second
    time. *)
Theorem commands_fail_on_closed_socket (h : handle) (fuel : nat)
    (st : machine) :
  socket (self st) = Some h -> sock_closed (net st) = true ->
  (forall command,
     send_command fuel command st
     = Some (Raise OSError (set_net (set_timeout None (net st)) st))) /\
  get_position fuel st
  = Some (Raise OSError (set_net (set_timeout None (net st)) st)) /\
  jog_positive fuel st
  = Some (Raise OSError (set_net (set_timeout None (net st)) st)) /\
  jog_negative fuel st
  = Some (Raise OSError (set_net (set_timeout None (net st)) st)) /\
  power_on fuel st
  = Some (Raise OSError (set_net (set_timeout None (net st)) st)) /\
  power_off fuel st
  = Some (Raise OSError (set_net (set_timeout None (net st)) st)) /\
  initialize fuel st
  = Some (Raise OSError (set_net (set_timeout None (net st)) st)) /\
  disconnect fuel st
  = Some (Raise OSError (set_net (set_timeout None (net st)) st)) /\
  trace (net (set_net (set_timeout None (net st)) st)) = trace (net st) /\
  self (set_net (set_timeout None (net st)) st) = self st.
Proof.
  intros Hs Hc. repeat apply conj;
    try exact (send_command_closed h _ _ _ Hs Hc); try reflexivity.
  - intros command. exact (send_command_closed h _ _ _ Hs Hc).
  - unfold get_position. apply bind_raise_eq.
    exact (send_command_closed h _ _ _ Hs Hc).
  - unfold initialize. cbn [for_each].
    apply bind_raise_eq. apply bind_raise_eq. apply bind_raise_eq.
    exact (send_command_closed h _ _ _ Hs Hc).
  - unfold disconnect. apply bind_raise_eq.
    exact (send_command_closed h _ _ _ Hs Hc).
Qed.

Lemma commands_fail_on_closed_socket_witness :
  sock_closed (closed_link (polite (lit ">")) (always true) None) = true /\
  disconnect 1
    (mkMachine rail (closed_link (polite (lit ">")) (always true) None))
  = Some (Raise OSError
            (mkMachine rail
               (closed_link (polite (lit ">")) (always true) None))).
Proof.
  split; [reflexivity|].
  exact (proj1 (proj2 (proj2 (proj2 (proj2 (proj2 (proj2 (proj2
           (commands_fail_on_closed_socket (Sock 3) 1
              (mkMachine rail
                 (closed_link (polite (lit ">")) (always true) None))
              eq_refl eq_refl))))))))).
Defined.

(** X10: when the exchange of [PQ] goes through, [disconnect] returns
    with the socket closed, having sent [PQ] and closed once; the socket
    attribute still names the closed socket, so that a second
    [disconnect] raises [OSError] and closes nothing. *)
Theorem disconnect_closes_once (h : handle) (st : machine) (fuel : nat) :
  socket (self st) = Some h -> sock_closed (net st) = false ->
  serves fuel 1 (rx (net st)) (rx_pos (net st))
         (tx (net st)) (tx_pos (net st)) ->
  exists st' st'',
    disconnect fuel st = Some (Ret tt st') /\
    sock_closed (net st') = true /\
    socket (self st') = Some h /\
    trace (net st') = trace (net st) ++ [Sent (lit "PQ" ++ [CR]); Closed] /\
    closes (trace (net st')) = S (closes (trace (net st))) /\
    disconnect fuel st' = Some (Raise OSError st'') /\
    trace (net st'') = trace (net st').
Proof.
  intros Hs Hc Hserve.
  destruct (disconnect_closes_after_exchange h st fuel Hs Hc Hserve)
    as (st' & E & Hc' & T & N).
  assert (Hs' : socket (self st') = Some h).
  { destruct (keeps_disconnect fuel st _ E) as (_ & _ & _ & _ & _ & _ & K).
    simpl in K. rewrite K. exact Hs. }
  exists st', (set_net (set_timeout None (net st')) st').
  repeat split; try assumption.
  unfold disconnect. apply bind_raise_eq.
  exact (send_command_closed h _ _ _ Hs' Hc').
Qed.

Lemma disconnect_closes_once_witness :
  serves 1 1 (polite (lit ">")) 0 (always true) 0 /\
  exists st' st'',
    disconnect 1
      (mkMachine rail (fresh_link (polite (lit ">")) (always true) None))
    = Some (Ret tt st') /\
    sock_closed (net st') = true /\
    socket (self st') = Some (Sock 3) /\
    trace (net st') = [Sent (lit "PQ" ++ [CR]); Closed] /\
    closes (trace (net st')) = 1%nat /\
    disconnect 1 st' = Some (Raise OSError st'') /\
    trace (net st'') = trace (net st').
Proof.
  pose proof (polite_serves (lit ">") 0 1 ltac:(discriminate) 0%nat 0%nat)
    as Hserve.
  split; [exact Hserve|].
  exact (disconnect_closes_once (Sock 3)
           (mkMachine rail (fresh_link (polite (lit ">")) (always true) None))
           1 eq_refl eq_refl Hserve).
Defined.

(** ** Connecting *)

(** [initialize] on a link that serves its seven exchanges, with what the
    connection looks like afterwards. *)
Lemma initialize_serves (h : handle) (st : machine) (fuel : nat) :
  socket (self st) = Some h -> sock_closed (net st) = false ->
  in_ranges (self st) ->
  serves fuel 7 (rx (net st)) (rx_pos (net st))
         (tx (net st)) (tx_pos (net st)) ->
  exists st',
    initialize fuel st = Some (Ret tt st') /\
    trace (net st')
    = trace (net st)
      ++ [Sent (lit "ECH0" ++ [CR]); Slept 200;
          Sent (lit "PW" ++ [CR]); Slept 200;
          Sent (lit "EVT1" ++ [CR]); Slept 200;
          Sent (lit "HORM" ++ [CR]); Slept 200;
          Sent (lit "EVT0" ++ [CR]); Slept 200;
          Sent ((lit "SP" ++ str_of_int (speed (self st))) ++ [CR]);
          Sent ((lit "AC" ++ str_of_int (acceleration (self st))) ++ [CR])] /\
    sock_closed (net st') = false /\
    same_settings (self st) (self st').
Proof.
  intros Hs Hc [Hsp Hac] H7.
  destruct (setup_round h st fuel 6 (lit "ECH0") _ Hs Hc eq_refl H7)
    as (s1 & E1 & Hs1 & Hsp1 & Hac1 & Hc1 & T1 & H6).
  destruct (setup_round h s1 fuel 5 (lit "PW") _ Hs1 Hc1 eq_refl H6)
    as (s2 & E2 & Hs2 & Hsp2 & Hac2 & Hc2 & T2 & H5).
  destruct (setup_round h s2 fuel 4 (lit "EVT1") _ Hs2 Hc2 eq_refl H5)
    as (s3 & E3 & Hs3 & Hsp3 & Hac3 & Hc3 & T3 & H4).
  destruct (setup_round h s3 fuel 3 (lit "HORM") _ Hs3 Hc3 eq_refl H4)
    as (s4 & E4 & Hs4 & Hsp4 & Hac4 & Hc4 & T4 & H3).
  destruct (setup_round h s4 fuel 2 (lit "EVT0") _ Hs4 Hc4 eq_refl H3)
    as (s5 & E5 & Hs5 & Hsp5 & Hac5 & Hc5 & T5 & H2).
  assert (Esp : speed (self s5) = speed (self st)) by congruence.
  assert (Eac : acceleration (self s5) = acceleration (self st))
    by congruence.
  destruct (send_command_then h
              (set_self (with_speed (speed (self st)) (self s5)) s5) fuel 1
              (lit "SP" ++ str_of_int (speed (self st))) _ Hs5 Hc5
              (encode_command "SP" _ ascii_only_lit_SP) H2)
    as (s6 & E6 & Hs6 & Hsp6 & Hac6 & Hc6 & T6 & H1).
  destruct (send_command_then h
              (set_self (with_acceleration (acceleration (self st))
                           (self s6)) s6) fuel 0
              (lit "AC" ++ str_of_int (acceleration (self st))) _ Hs6 Hc6
              (encode_command "AC" _ ascii_only_lit_AC) H1)
    as (s7 & E7 & Hs7 & Hsp7 & Hac7 & Hc7 & T7 & _).
  assert (E : initialize fuel st = Some (Ret tt s7)).
  { unfold initialize. cbn [for_each]. unfold bind at 1.
    assert (Eloop :
      ((send_command fuel (lit "ECH0");; sleep 200);;
       (send_command fuel (lit "PW");; sleep 200);;
       (send_command fuel (lit "EVT1");; sleep 200);;
       (send_command fuel (lit "HORM");; sleep 200);;
       (send_command fuel (lit "EVT0");; sleep 200);; ret tt) st
      = Some (Ret tt s5)).
    { rewrite (bind_ret_eq _ _ _ _ _ E1), (bind_ret_eq _ _ _ _ _ E2),
        (bind_ret_eq _ _ _ _ _ E3), (bind_ret_eq _ _ _ _ _ E4),
        (bind_ret_eq _ _ _ _ _ E5).
      reflexivity. }
    rewrite Eloop.
    unfold bind at 1, attr at 1. rewrite Esp.
    unfold set_speed. rewrite (in_range_true _ _ _ Hsp).
    unfold bind at 1.
    unfold bind at 1, assign at 1. change (negb false) with true. cbv iota.
    rewrite E6.
    unfold bind at 1, attr at 1.
    replace (acceleration (self s6)) with (acceleration (self st))
      by (rewrite Hac6; simpl; symmetry; exact Eac).
    unfold set_acceleration. rewrite (in_range_true _ _ _ Hac).
    unfold bind at 1, assign at 1. change (negb false) with true. cbv iota.
    exact E7. }
  exists s7. split; [exact E|]. split; [|split].
  - rewrite T7. simpl trace. rewrite T6. simpl trace.
    rewrite T5, T4, T3, T2, T1.
    repeat rewrite <- app_assoc. reflexivity.
  - exact Hc7.
  - exact (keeps_initialize fuel st _ E).
Qed.

(** X12: when the connection is refused, [connect] raises [OSError] after
    it has stored the new socket: [initialize] is not run and nothing is
    sent, but the socket attribute now names an open socket that is not
    connected, on which a later command fails with [OSError] while it
    drains the buffer, before sending anything. *)
Theorem connect_refused (fuel : nat) (fd : nat) (st : machine)
    (command : str) :
  exists st',
    connect fuel fd Refused st = Some (Raise OSError st') /\
    socket (self st') = Some (Sock fd) /\
    sock_closed (net st') = false /\
    trace (net st') = trace (net st) /\
    same_settings (with_socket_attr (Some (Sock fd)) (self st)) (self st') /\
    exists st'',
      send_command (S fuel) command st' = Some (Raise OSError st'') /\
      trace (net st'') = trace (net st).
Proof.
  eexists. split; [reflexivity|].
  repeat split.
  eexists. split.
  - apply (send_command_stops_at_failed_drain (Sock fd) _ _ (S fuel) 0);
      try reflexivity.
    + split; [intros i Hi; inversion Hi | reflexivity].
    + apply Nat.lt_0_succ.
  - reflexivity.
Qed.

(** X13: when the connection is accepted by a peer that serves seven
    exchanges, and the stored speed and acceleration are in range,
    [connect] returns with the socket attribute naming the new socket,
    open, having run [initialize]: the five setup commands with their
    pauses, then the stored speed and acceleration; no other setting
    changes. *)
Theorem connect_accepted (fuel : nat) (fd : nat) (st : machine)
    (rx' : nat -> recv_outcome) (tx' : nat -> bool) :
  in_ranges (self st) ->
  serves fuel 7 rx' 0 tx' 0 ->
  exists st',
    connect fuel fd (Accepted rx' tx') st = Some (Ret tt st') /\
    socket (self st') = Some (Sock fd) /\
    sock_closed (net st') = false /\
    trace (net st')
    = trace (net st)
      ++ [Sent (lit "ECH0" ++ [CR]); Slept 200;
          Sent (lit "PW" ++ [CR]); Slept 200;
          Sent (lit "EVT1" ++ [CR]); Slept 200;
          Sent (lit "HORM" ++ [CR]); Slept 200;
          Sent (lit "EVT0" ++ [CR]); Slept 200;
          Sent ((lit "SP" ++ str_of_int (speed (self st))) ++ [CR]);
          Sent ((lit "AC" ++ str_of_int (acceleration (self st))) ++ [CR])] /\
    same_settings (with_socket_attr (Some (Sock fd)) (self st)) (self st').
Proof.
  intros Hin Hserve.
  destruct (initialize_serves (Sock fd)
              (mkMachine (with_socket_attr (Some (Sock fd)) (self st))
                 (mkWorld None false rx' 0 tx' 0
                          (trace (net st)) (printed (net st))))
              fuel eq_refl eq_refl Hin Hserve)
    as (st' & E & T & Hc & K).
  exists st'. split; [exact E|].
  split; [|split; [exact Hc | split; [exact T | exact K]]].
  destruct K as (_ & _ & _ & _ & _ & _ & K). exact K.
Qed.

Lemma connect_accepted_witness :
  in_ranges offline /\
  serves 1 7 (polite (lit ">")) 0 (always true) 0 /\
  exists st',
    connect 1 5 (Accepted (polite (lit ">")) (always true))
      (mkMachine offline (fresh_link no_peer_rx no_peer_tx None))
    = Some (Ret tt st') /\
    socket (self st') = Some (Sock 5) /\
    sock_closed (net st') = false /\
    trace (net st')
    = [Sent (lit "ECH0" ++ [CR]); Slept 200;
       Sent (lit "PW" ++ [CR]); Slept 200;
       Sent (lit "EVT1" ++ [CR]); Slept 200;
       Sent (lit "HORM" ++ [CR]); Slept 200;
       Sent (lit "EVT0" ++ [CR]); Slept 200;
       Sent (lit "SP100000" ++ [CR]);
       Sent (lit "AC1000000" ++ [CR])] /\
    same_settings (with_socket_attr (Some (Sock 5)) offline) (self st').
Proof.
  assert (Hin : in_ranges offline) by (unfold in_ranges; simpl; lia).
  pose proof (polite_serves (lit ">") 0 7 ltac:(discriminate) 0%nat 0%nat)
    as Hserve.
  split; [exact Hin|]. split; [exact Hserve|].
  exact (connect_accepted 1 5
           (mkMachine offline (fresh_link no_peer_rx no_peer_tx None))
           (polite (lit ">")) (always true) Hin Hserve).
Defined.

(** ** Limits *)

(** X14: a client without a right limit (the default of the constructor)
    cannot move: [set_position] of an integer at or above the left limit
    raises [TypeError], below it [ValueError], and [center_position]
    raises [TypeError], all without any I/O.  Once [max_position] has been
    assigned, the same call for a position within the limits is the
    exchange of [G<v>] and [center_position] is the floor of the half
    sum. *)
Theorem limits_must_be_set (fuel : nat) (st : machine) :
  limit_right (self st) = None ->
  (forall v,
     set_position fuel (PInt v) st
     = Some (if limit_left (self st) <=? v
             then Raise (TypeError
               "'<=' not supported between instances of 'int' and 'NoneType'")
               st
             else Raise (ValueError "Position out of limits") st)) /\
  center_position st
  = Some (Raise (TypeError
            "unsupported operand type(s) for +: 'int' and 'NoneType'") st) /\
  (forall r v, limit_left (self st) <= v <= r ->
     (set_max_position (Some r) ;; set_position fuel (PInt v)) st
     = send_command fuel (lit "G" ++ str_of_int v)
         (set_self (with_limit_right (Some r) (self st)) st)) /\
  (forall r,
     (set_max_position (Some r) ;; center_position) st
     = Some (Ret ((limit_left (self st) + r) / 2)
               (set_self (with_limit_right (Some r) (self st)) st))) /\
  (forall r,
     (set_max_position (Some r) ;; max_position) st
     = Some (Ret (Some r)
               (set_self (with_limit_right (Some r) (self st)) st))).
Proof.
  intros Hr. repeat apply conj.
  - intros v. unfold set_position, bind, ret, attr, raise. rewrite Hr. simpl.
    destruct (limit_left (self st) <=? v); reflexivity.
  - unfold center_position, bind, attr, raise. rewrite Hr. reflexivity.
  - intros r v Hv.
    unfold set_max_position, set_position, bind, assign, ret, attr. simpl.
    destruct (Z.leb_spec (limit_left (self st)) v); [|lia].
    destruct (Z.leb_spec v r); [reflexivity | lia].
  - intros r. reflexivity.
  - intros r. reflexivity.
Qed.

Lemma limits_must_be_set_witness :
  limit_right (with_limit_right None rail) = None /\
  set_position 1 (PInt 5000)
    (mkMachine (with_limit_right None rail)
               (fresh_link (polite (lit ">")) (always true) None))
  = Some (Raise (TypeError
            "'<=' not supported between instances of 'int' and 'NoneType'")
            (mkMachine (with_limit_right None rail)
                       (fresh_link (polite (lit ">")) (always true) None))).
Proof.
  split; [reflexivity|].
  exact (proj1 (limits_must_be_set 1
                  (mkMachine (with_limit_right None rail)
                     (fresh_link (polite (lit ">")) (always true) None))
                  eq_refl) 5000).
Defined.

(** ** Values that are not plain integers *)

(** X15: a [bool] passes the integer test of [set_position], is compared
    with the limits as 0 or 1, and goes out as the f-string prints it: the
    command sent for [True] is [GTrue], for [False] it is [GFalse]. *)
Theorem set_position_bool (fuel : nat) (st : machine) (b : bool) (r : Z)
    (h : handle) :
  limit_right (self st) = Some r ->
  limit_left (self st) <= (if b then 1 else 0) <= r ->
  set_position fuel (PBool b) st
  = send_command fuel (lit "G" ++ str_of_bool b) st /\
  (socket (self st) = Some h -> sock_closed (net st) = false ->
   serves fuel 1 (rx (net st)) (rx_pos (net st))
          (tx (net st)) (tx_pos (net st)) ->
   exists st',
     set_position fuel (PBool b) st = Some (Ret tt st') /\
     trace (net st')
     = trace (net st)
       ++ [Sent ((lit "G" ++ (if b then lit "True" else lit "False"))
                 ++ [CR])]).
Proof.
  intros Hr Hb.
  assert (E : set_position fuel (PBool b) st
              = send_command fuel (lit "G" ++ str_of_bool b) st).
  { unfold set_position, bind, ret, attr. rewrite Hr. simpl.
    destruct (Z.leb_spec (limit_left (self st)) (if b then 1 else 0));
      [|lia].
    destruct (Z.leb_spec (if b then 1 else 0) r); [reflexivity | lia]. }
  split; [exact E|].
  intros Hs Hc Hserve. rewrite E. destruct st as [c w]. simpl in *.
  destruct (send_command_serves h c w fuel 0 (lit "G" ++ str_of_bool b) _
              Hs Hc (encode_bool_command b) Hserve)
    as (a & w' & Es & _ & Htr & _).
  eexists. split; [exact Es | exact Htr].
Qed.

Lemma set_position_bool_witness :
  limit_left rail <= 1 <= 10000 /\
  exists st',
    set_position 1 (PBool true)
      (mkMachine rail (fresh_link (polite (lit ">")) (always true) None))
    = Some (Ret tt st') /\
    trace (net st') = [Sent (lit "GTrue" ++ [CR])].
Proof.
  split; [simpl; lia|].
  exact (proj2 (set_position_bool 1
                  (mkMachine rail
                     (fresh_link (polite (lit ">")) (always true) None))
                  true 10000 (Sock 3) eq_refl ltac:(simpl; lia))
           eq_refl eq_refl
           (polite_serves (lit ">") 0 1 ltac:(discriminate) 0%nat 0%nat)).
Defined.

(** X16: the float is converted before the limits are tested.  A float
    that is not finite never reaches the test: [set_position] raises
    [ValueError] for NaN and [OverflowError] for an infinity, without any
    I/O.  A float of magnitude below one counts as 0 whatever its sign:
    with a left limit of 0, a position such as -0.5 is not refused but
    handled as the integer 0. *)
Theorem set_position_float_edges (fuel : nat) (st : machine) :
  set_position fuel (PFloat S754_nan) st
  = Some (Raise (ValueError "cannot convert float NaN to integer") st) /\
  (forall s, set_position fuel (PFloat (S754_infinity s)) st
             = Some (Raise OverflowError st)) /\
  (forall s m e,
     Z.pos m < 2 ^ (- e) ->
     set_position fuel (PFloat (S754_finite s m e)) st
     = set_position fuel (PInt 0) st).
Proof.
  split; [reflexivity|]. split; [reflexivity|].
  intros s m e Hm.
  assert (He : e < 0).
  { destruct (Z.lt_ge_cases e 0) as [H | H]; [exact H|].
    exfalso.
    destruct (Z.eq_dec e 0) as [-> | Hne].
    - simpl in Hm. lia.
    - rewrite Z.pow_neg_r in Hm by lia. lia. }
  unfold set_position at 1, bind at 1, int_of_float.
  rewrite Z.shiftl_div_pow2 by lia.
  rewrite Z.div_small by lia.
  destruct s; reflexivity.
Qed.

Lemma set_position_float_edges_witness :
  Z.pos 1 < 2 ^ (- (-1)) /\
  set_position 1 (PFloat (S754_finite true 1 (-1)))
    (mkMachine rail (fresh_link (polite (lit ">")) (always true) None))
  = set_position 1 (PInt 0)
      (mkMachine rail (fresh_link (polite (lit ">")) (always true) None)).
Proof.
  split; [reflexivity|].
  apply (proj2 (proj2 (set_position_float_edges 1
           (mkMachine rail
              (fresh_link (polite (lit ">")) (always true) None))))
           true 1%positive (-1)).
  reflexivity.
Defined.

(** ** Fixed commands *)

(** X17: on a link that serves one exchange, [jog_positive],
    [jog_negative], [power_on] and [power_off] return having sent [JP],
    [JN], [PW] and [PQ], each with its carriage return and nothing else;
    [power_off] sends what [disconnect] sends but leaves the socket
    open. *)
Theorem jog_and_power_commands (h : handle) (st : machine) (fuel : nat) :
  socket (self st) = Some h -> sock_closed (net st) = false ->
  serves fuel 1 (rx (net st)) (rx_pos (net st))
         (tx (net st)) (tx_pos (net st)) ->
  (exists st', jog_positive fuel st = Some (Ret tt st') /\
               trace (net st') = trace (net st) ++ [Sent (lit "JP" ++ [CR])])
  /\
  (exists st', jog_negative fuel st = Some (Ret tt st') /\
               trace (net st') = trace (net st) ++ [Sent (lit "JN" ++ [CR])])
  /\
  (exists st', power_on fuel st = Some (Ret tt st') /\
               trace (net st') = trace (net st) ++ [Sent (lit "PW" ++ [CR])])
  /\
  (exists st', power_off fuel st = Some (Ret tt st') /\
               trace (net st') = trace (net st) ++ [Sent (lit "PQ" ++ [CR])]
               /\ sock_closed (net st') = false).
Proof.
  intros Hs Hc Hserve. repeat apply conj.
  - destruct (send_command_then h st fuel 0 (lit "JP") _ Hs Hc eq_refl
                Hserve) as (st' & E & _ & _ & _ & _ & T & _).
    exists st'. split; assumption.
  - destruct (send_command_then h st fuel 0 (lit "JN") _ Hs Hc eq_refl
                Hserve) as (st' & E & _ & _ & _ & _ & T & _).
    exists st'. split; assumption.
  - destruct (send_command_then h st fuel 0 (lit "PW") _ Hs Hc eq_refl
                Hserve) as (st' & E & _ & _ & _ & _ & T & _).
    exists st'. split; assumption.
  - destruct (send_command_then h st fuel 0 (lit "PQ") _ Hs Hc eq_refl
                Hserve) as (st' & E & _ & _ & _ & C & T & _).
    exists st'. repeat split; assumption.
Qed.

Lemma jog_and_power_commands_witness :
  serves 1 1 (polite (lit ">")) 0 (always true) 0 /\
  exists st',
    jog_negative 1
      (mkMachine rail (fresh_link (polite (lit ">")) (always true) None))
    = Some (Ret tt st') /\
    trace (net st') = [Sent (lit "JN" ++ [CR])].
Proof.
  pose proof (polite_serves (lit ">") 0 1 ltac:(discriminate) 0%nat 0%nat)
    as Hserve.
  split; [exact Hserve|].
  exact (proj1 (proj2 (jog_and_power_commands (Sock 3)
                         (mkMachine rail
                            (fresh_link (polite (lit ">")) (always true)
                                        None))
                         1 eq_refl eq_refl Hserve))).
Defined.

(** ** Answers *)

(** X18: [get_position] returns the decoded and stripped text of the one
    chunk it reads after the drain, stores it in [last_response], and
    consumes the [k] stale chunks and the stop before it: what was pending
    when the call began is thrown away, whatever it was. *)
Theorem get_position_answer (h : handle) (c : client) (w : world)
    (fuel k : nat) (bs : bytes) (s : str) :
  socket c = Some h -> sock_closed w = false ->
  stops_at (rx w) (rx_pos w) k -> (k < fuel)%nat ->
  rx w (rx_pos w + k)%nat <> Failure ->
  tx w (tx_pos w) = true ->
  rx w (rx_pos w + S k)%nat = Data bs ->
  decode (firstn 1024 bs) = Some s ->
  exists st',
    get_position fuel (mkMachine c w)
    = Some (Ret (strip delimiters s) st') /\
    last_response (self st') = strip delimiters s /\
    rx_pos (net st') = (rx_pos w + k + 2)%nat /\
    trace (net st') = trace w ++ [Sent (lit "TP" ++ [CR])].
Proof.
  intros Hs Hc Hstop Hfuel Hnf Htx Hrx Hdec.
  eexists. split.
  - apply (get_position_exchange h c w fuel k); try assumption.
    rewrite Hrx. simpl. rewrite Hdec. reflexivity.
  - simpl. repeat split. lia.
Qed.

Lemma get_position_answer_witness :
  stops_at stale_then_quiet 0 2 /\
  exists st',
    get_position 3
      (mkMachine rail
         (fresh_link
            (fun n => if (n <? 3)%nat then stale_then_quiet n
                      else Data (lit "> 77" ++ [CR; LF]))
            (always true) None))
    = Some (Ret (lit "77") st') /\
    last_response (self st') = lit "77" /\
    rx_pos (net st') = 4%nat /\
    trace (net st') = [Sent (lit "TP" ++ [CR])].
Proof.
  assert (Hstop : stops_at stale_then_quiet 0 2).
  { split.
    - intros [|[|i]] Hi; [reflexivity | reflexivity |].
      exfalso. inversion Hi as [|? H1]. inversion H1 as [|? H2].
      inversion H2.
    - reflexivity. }
  split; [exact Hstop|].
  refine (get_position_answer (Sock 3) rail
            (fresh_link
               (fun n => if (n <? 3)%nat then stale_then_quiet n
                         else Data (lit "> 77" ++ [CR; LF]))
               (always true) None)
            3 2 (lit "> 77" ++ [CR; LF]) (lit "> 77" ++ [CR; LF])
            eq_refl eq_refl _ _ _ eq_refl eq_refl eq_refl).
  - split.
    + intros [|[|i]] Hi; [reflexivity | reflexivity |].
      exfalso. inversion Hi as [|? H1]. inversion H1 as [|? H2].
      inversion H2.
    + reflexivity.
  - repeat constructor.
  - discriminate.
Defined.

(** X19: only the first chunk of an answer is ever used.  When an answer
    comes in two chunks, [get_position] returns the first one alone; the
    second, still pending, is thrown away by the drain of the next call,
    which returns the answer to its own command. *)
Theorem split_answer_loses_its_tail (h : handle) (c : client) (w : world)
    (fuel k : nat) (a1 a3 : bytes) (s1 s3 : str) :
  socket c = Some h -> sock_closed w = false ->
  stops_at (rx w) (rx_pos w) k -> (k < fuel)%nat -> (1 < fuel)%nat ->
  rx w (rx_pos w + k)%nat <> Failure ->
  tx w (tx_pos w) = true -> tx w (S (tx_pos w)) = true ->
  rx w (rx_pos w + k + 1)%nat = Data a1 ->
  decode (firstn 1024 a1) = Some s1 ->
  flows (rx w (rx_pos w + k + 2)%nat) = true ->
  flows (rx w (rx_pos w + k + 3)%nat) = false ->
  rx w (rx_pos w + k + 3)%nat <> Failure ->
  rx w (rx_pos w + k + 4)%nat = Data a3 ->
  decode (firstn 1024 a3) = Some s3 ->
  exists st1 st2,
    get_position fuel (mkMachine c w)
    = Some (Ret (strip delimiters s1) st1) /\
    get_position fuel st1 = Some (Ret (strip delimiters s3) st2) /\
    last_response (self st2) = strip delimiters s3 /\
    rx_pos (net st2) = (rx_pos w + k + 5)%nat /\
    trace (net st2)
    = trace w ++ [Sent (lit "TP" ++ [CR]); Sent (lit "TP" ++ [CR])].
Proof.
  intros Hs Hc Hstop Hfuel Hfuel1 Hnf Htx Htx1 Ha1 Hd1 Hfl Hst Hnf3 Ha3 Hd3.
  assert (P1 : (rx_pos w + S k = rx_pos w + k + 1)%nat) by lia.
  assert (Hans1 : answer (rx w (rx_pos w + S k)%nat)
                  = Some (strip delimiters s1)).
  { rewrite P1, Ha1. simpl. rewrite Hd1. reflexivity. }
  pose proof (get_position_exchange h c w fuel k _ Hs Hc Hstop Hfuel Hnf
                Htx Hans1) as E1.
  set (r1 := strip delimiters s1) in *.
  set (st1 := exchanged k (lit "TP" ++ [CR]) r1 c w) in *.
  assert (Pos1 : rx_pos (net st1) = (rx_pos w + S (S k))%nat)
    by reflexivity.
  assert (Hstop2 : stops_at (rx (net st1)) (rx_pos (net st1)) 1).
  { rewrite Pos1. simpl rx. split.
    - intros i Hi. assert (i = 0)%nat as -> by lia.
      replace (rx_pos w + S (S k) + 0)%nat with (rx_pos w + k + 2)%nat
        by lia.
      exact Hfl.
    - replace (rx_pos w + S (S k) + 1)%nat with (rx_pos w + k + 3)%nat
        by lia.
      exact Hst. }
  assert (Hnf2 : rx (net st1) (rx_pos (net st1) + 1)%nat <> Failure).
  { rewrite Pos1. simpl rx.
    replace (rx_pos w + S (S k) + 1)%nat with (rx_pos w + k + 3)%nat by lia.
    exact Hnf3. }
  assert (Hans2 : answer (rx (net st1) (rx_pos (net st1) + 2)%nat)
                  = Some (strip delimiters s3)).
  { rewrite Pos1. simpl rx.
    replace (rx_pos w + S (S k) + 2)%nat with (rx_pos w + k + 4)%nat by lia.
    rewrite Ha3. simpl. rewrite Hd3. reflexivity. }
  pose proof (get_position_exchange h (self st1) (net st1) fuel 1
                (strip delimiters s3) Hs Hc Hstop2 Hfuel1 Hnf2 Htx1 Hans2)
    as E2.
  exists st1. eexists. split; [exact E1|]. split; [exact E2|].
  simpl. repeat split.
  - lia.
  - rewrite <- app_assoc. reflexivity.
Qed.

Lemma split_answer_loses_its_tail_witness :
  flows (split_answer 2) = true /\
  exists st1 st2,
    get_position 2 (mkMachine rail (fresh_link split_answer (always true) None))
    = Some (Ret (lit "12") st1) /\
    get_position 2 st1 = Some (Ret (lit "99") st2) /\
    last_response (self st2) = lit "99" /\
    rx_pos (net st2) = 5%nat /\
    trace (net st2) = [Sent (lit "TP" ++ [CR]); Sent (lit "TP" ++ [CR])].
Proof.
  split; [reflexivity|].
  refine (split_answer_loses_its_tail (Sock 3) rail
            (fresh_link split_answer (always true) None) 2 0
            (lit "> 12") (lit "> 99" ++ [CR; LF])
            (lit "> 12") (lit "> 99" ++ [CR; LF])
            eq_refl eq_refl _ _ _ _ eq_refl eq_refl eq_refl eq_refl
            eq_refl eq_refl _ eq_refl eq_refl).
  - split; [intros i Hi; inversion Hi | reflexivity].
  - repeat constructor.
  - repeat constructor.
  - discriminate.
  - discriminate.
Defined.

Lemma lstrip_all (chars s : str) :
  Forall (fun ch => mem ch chars = true) s -> lstrip chars s = [].
Proof.
  induction 1 as [|ch t Hch _ IH]; simpl.
  - reflexivity.
  - rewrite Hch. exact IH.
Qed.

Lemma strip_empty_iff (chars s : str) :
  strip chars s = [] <-> Forall (fun ch => mem ch chars = true) s.
Proof.
  split.
  - intros E. destruct (strip_spec chars s) as (pre & post & Hs & Hp & Hq & _).
    rewrite E in Hs. simpl in Hs. rewrite Hs.
    apply Forall_app. split; assumption.
  - intros H. unfold strip. rewrite (lstrip_all _ _ H). reflexivity.
Qed.

(** X20: an answer yields the empty string exactly when it is made of
    delimiters only (['>'], space, carriage return, newline; the bare
    prompt for one), and a failed read yields the empty string too: the
    value [read_response] returns does not tell the two apart. *)
Theorem empty_response_is_ambiguous (h : handle) (c : client) (w : world) :
  socket c = Some h -> sock_closed w = false ->
  (forall bs s,
     rx w (rx_pos w) = Data bs -> decode (firstn 1024 bs) = Some s ->
     (read_response (mkMachine c w)
      = Some (Ret [] (mkMachine c (next_rx w)))
      <-> Forall (fun ch => mem ch delimiters = true) s)) /\
  (rx w (rx_pos w) = Failure ->
   read_response (mkMachine c w)
   = Some (Ret [] (mkMachine c (count_print (next_rx w))))).
Proof.
  intros Hs Hc. split.
  - intros bs s Hrx Hdec.
    rewrite (read_response_meets h c w Hs Hc), Hrx, Hdec.
    rewrite <- strip_empty_iff. split.
    + intros [= E]. exact E.
    + intros E. rewrite E. reflexivity.
  - intros Hrx. rewrite (read_response_meets h c w Hs Hc), Hrx.
    reflexivity.
Qed.

Lemma empty_response_is_ambiguous_witness :
  Forall (fun ch => mem ch delimiters = true) (lit ">" ++ [CR; LF]) /\
  read_response
    (mkMachine rail
       (mkWorld None false (polite (lit ">" ++ [CR; LF])) 1 (always true) 1
                [] 0))
  = Some (Ret []
            (mkMachine rail
               (mkWorld None false (polite (lit ">" ++ [CR; LF])) 2
                        (always true) 1 [] 0))).
Proof.
  assert (H : Forall (fun ch => mem ch delimiters = true)
                     (lit ">" ++ [CR; LF])) by (repeat constructor).
  split; [exact H|].
  exact (proj2 (proj1 (empty_response_is_ambiguous (Sock 3) rail
                         (mkWorld None false (polite (lit ">" ++ [CR; LF])) 1
                                  (always true) 1 [] 0)
                         eq_refl eq_refl)
                  (lit ">" ++ [CR; LF]) (lit ">" ++ [CR; LF])
                  eq_refl eq_refl) H).
Defined.

(** ** A send that fails during initialization *)

Lemma send_command_then_fails (h : handle) (st : machine) (fuel n : nat)
    (command : str) (payload : bytes) :
  socket (self st) = Some h -> sock_closed (net st) = false ->
  encode (command ++ [CR]) = Some payload ->
  serves_then_fails fuel (S n) (rx (net st)) (rx_pos (net st))
                    (tx (net st)) (tx_pos (net st)) ->
  exists st',
    send_command fuel command st = Some (Ret tt st') /\
    socket (self st') = Some h /\
    speed (self st') = speed (self st) /\
    acceleration (self st') = acceleration (self st) /\
    sock_closed (net st') = false /\
    trace (net st') = trace (net st) ++ [Sent payload] /\
    serves_then_fails fuel n (rx (net st')) (rx_pos (net st'))
                      (tx (net st')) (tx_pos (net st')).
Proof.
  destruct st as [c w]. simpl.
  intros Hs Hc Henc (Htx & k & Hfuel & Hstop & Hnf & Hans & Hrest).
  destruct (answer (rx w (rx_pos w + S k)%nat)) as [r|] eqn:Ea;
    [|contradiction].
  exists (exchanged k payload r c w). split.
  - exact (send_command_exchange h c w fuel k command payload r
             Hs Hc Hstop Hfuel Hnf Henc Htx Ea).
  - simpl. repeat split; assumption.
Qed.

Lemma send_command_fails_now (h : handle) (st : machine) (fuel : nat)
    (command : str) (payload : bytes) :
  socket (self st) = Some h -> sock_closed (net st) = false ->
  encode (command ++ [CR]) = Some payload ->
  serves_then_fails fuel 0 (rx (net st)) (rx_pos (net st))
                    (tx (net st)) (tx_pos (net st)) ->
  exists st',
    send_command fuel command st = Some (Raise OSError st') /\
    self st' = self st /\
    sock_closed (net st') = false /\
    trace (net st') = trace (net st).
Proof.
  destruct st as [c w]. simpl.
  intros Hs Hc Henc (Htx & k & Hfuel & Hstop & Hnf).
  eexists. split.
  - exact (send_command_send_failure h c w fuel k command payload
             Hs Hc Hstop Hfuel Hnf Henc Htx).
  - simpl. repeat split. exact Hc.
Qed.

(** The loop of [initialize] over any list of plain commands, on a link
    that serves them all. *)
Lemma setup_loop_completes (h : handle) (fuel m : nat) (cmds : list str) :
  Forall ascii_only cmds ->
  forall st,
    socket (self st) = Some h -> sock_closed (net st) = false ->
    serves_then_fails fuel (List.length cmds + m) (rx (net st)) (rx_pos (net st))
                      (tx (net st)) (tx_pos (net st)) ->
    exists st',
      for_each cmds (fun cmd => send_command fuel cmd ;; sleep 200) st
      = Some (Ret tt st') /\
      socket (self st') = Some h /\
      speed (self st') = speed (self st) /\
      acceleration (self st') = acceleration (self st) /\
      sock_closed (net st') = false /\
      trace (net st') = trace (net st) ++ rounds cmds /\
      serves_then_fails fuel m (rx (net st')) (rx_pos (net st'))
                        (tx (net st')) (tx_pos (net st')).
Proof.
  induction 1 as [|cmd cmds Hcmd _ IH]; intros st Hs Hc Hserve.
  - exists st. simpl. rewrite app_nil_r. repeat split; assumption.
  - cbn [List.length Nat.add] in Hserve.
    assert (Henc : encode (cmd ++ [CR]) = Some (cmd ++ [CR])).
    { apply encode_ascii. apply ascii_only_app; [exact Hcmd|].
      repeat constructor. }
    destruct (send_command_then_fails h st fuel _ cmd _ Hs Hc Henc Hserve)
      as (s1 & E1 & Hs1 & Hsp1 & Hac1 & Hc1 & T1 & H1).
    destruct (IH (set_net (log (Slept 200) (net s1)) s1) Hs1 Hc1 H1)
      as (s2 & E2 & Hs2 & Hsp2 & Hac2 & Hc2 & T2 & H2).
    exists s2. cbn [for_each].
    rewrite (bind_ret_eq _ _ _ (set_net (log (Slept 200) (net s1)) s1) tt).
    + split; [exact E2|]. repeat split; try assumption.
      * rewrite Hsp2. exact Hsp1.
      * rewrite Hac2. exact Hac1.
      * rewrite T2. simpl. rewrite T1, <- !app_assoc. reflexivity.
    + rewrite (bind_ret_eq _ _ _ _ _ E1). reflexivity.
Qed.

(** The same loop on a link whose send fails in the round of index [j]:
    the rounds before it are complete, the rest is not attempted. *)
Lemma setup_loop_aborts (h : handle) (fuel : nat) (cmds : list str) :
  Forall ascii_only cmds ->
  forall j st,
    (j < List.length cmds)%nat ->
    socket (self st) = Some h -> sock_closed (net st) = false ->
    serves_then_fails fuel j (rx (net st)) (rx_pos (net st))
                      (tx (net st)) (tx_pos (net st)) ->
    exists st',
      for_each cmds (fun cmd => send_command fuel cmd ;; sleep 200) st
      = Some (Raise OSError st') /\
      sock_closed (net st') = false /\
      trace (net st') = trace (net st) ++ rounds (firstn j cmds).
Proof.
  induction 1 as [|cmd cmds Hcmd _ IH]; intros j st Hj Hs Hc Hserve.
  - simpl in Hj. lia.
  - assert (Henc : encode (cmd ++ [CR]) = Some (cmd ++ [CR])).
    { apply encode_ascii. apply ascii_only_app; [exact Hcmd|].
      repeat constructor. }
    destruct j as [|j].
    + destruct (send_command_fails_now h st fuel cmd _ Hs Hc Henc Hserve)
        as (s1 & E1 & _ & Hc1 & T1).
      exists s1. cbn [for_each]. split.
      * apply bind_raise_eq. apply bind_raise_eq. exact E1.
      * split; [exact Hc1|]. rewrite T1. simpl. rewrite app_nil_r.
        reflexivity.
    + destruct (send_command_then_fails h st fuel j cmd _ Hs Hc Henc Hserve)
        as (s1 & E1 & Hs1 & _ & _ & Hc1 & T1 & H1).
      simpl in Hj.
      destruct (IH j (set_net (log (Slept 200) (net s1)) s1)
                  ltac:(lia) Hs1 Hc1 H1) as (s2 & E2 & Hc2 & T2).
      exists s2. cbn [for_each].
      rewrite (bind_ret_eq _ _ _ (set_net (log (Slept 200) (net s1)) s1) tt).
      * split; [exact E2|]. split; [exact Hc2|].
        rewrite T2. simpl. rewrite T1, <- !app_assoc. reflexivity.
      * rewrite (bind_ret_eq _ _ _ _ _ E1). reflexivity.
Qed.

Lemma ascii_only_setup_commands : Forall ascii_only setup_commands.
Proof. repeat constructor. Qed.

(** X21: [initialize] stops at the first send that fails.  When the link
    serves [j] exchanges (at most six) and fails the send of the next,
    [initialize] raises [OSError] with exactly the events of the first [j]
    commands done (each setup command with its pause): the commands after
    the failed one are not attempted, and the socket stays open. *)
Theorem initialize_stops_at_failed_send (h : handle) (st : machine)
    (fuel j : nat) :
  socket (self st) = Some h -> sock_closed (net st) = false ->
  in_ranges (self st) -> (j <= 6)%nat ->
  serves_then_fails fuel j (rx (net st)) (rx_pos (net st))
                    (tx (net st)) (tx_pos (net st)) ->
  exists st',
    initialize fuel st = Some (Raise OSError st') /\
    sock_closed (net st') = false /\
    trace (net st')
    = trace (net st)
      ++ firstn (Nat.min (2 * j) (j + 5))
           (initialize_events (speed (self st)) (acceleration (self st))).
Proof.
  intros Hs Hc [Hsp Hac] Hj Hserve.
  change (initialize fuel)
    with (for_each setup_commands
            (fun cmd => send_command fuel cmd ;; sleep 200) ;;
          sp <- attr speed ;;
          set_speed fuel sp false ;;
          ac <- attr acceleration ;;
          set_acceleration fuel ac false).
  destruct (Nat.lt_ge_cases j 5) as [Hlt | Hge].
  - destruct (setup_loop_aborts h fuel setup_commands
                ascii_only_setup_commands j st Hlt Hs Hc Hserve)
      as (s1 & E1 & Hc1 & T1).
    exists s1. split; [exact (bind_raise_eq _ _ _ _ _ E1)|].
    split; [exact Hc1|]. rewrite T1. f_equal.
    destruct j as [|[|[|[|[|j]]]]]; try reflexivity. lia.
  - assert (Hj' : j = 5%nat \/ j = 6%nat) by lia.
    destruct Hj' as [-> | ->].
    + destruct (setup_loop_completes h fuel 0 setup_commands
                  ascii_only_setup_commands st Hs Hc Hserve)
        as (s1 & E1 & Hs1 & Hsp1 & Hac1 & Hc1 & T1 & H1).
      destruct (send_command_fails_now h
                  (set_self (with_speed (speed (self st)) (self s1)) s1)
                  fuel (lit "SP" ++ str_of_int (speed (self st))) _
                  Hs1 Hc1 (encode_command "SP" _ ascii_only_lit_SP) H1)
        as (s2 & E2 & _ & Hc2 & T2).
      exists s2. split; [|split; [exact Hc2|]].
      * rewrite (bind_ret_eq _ _ _ _ _ E1).
        unfold bind at 1, attr at 1. rewrite Hsp1.
        apply bind_raise_eq.
        unfold set_speed. rewrite (in_range_true _ _ _ Hsp).
        unfold bind at 1, assign at 1. change (negb false) with true.
        cbv iota. exact E2.
      * rewrite T2. simpl trace. rewrite T1. reflexivity.
    + destruct (setup_loop_completes h fuel 1 setup_commands
                  ascii_only_setup_commands st Hs Hc Hserve)
        as (s1 & E1 & Hs1 & Hsp1 & Hac1 & Hc1 & T1 & H1).
      destruct (send_command_then_fails h
                  (set_self (with_speed (speed (self st)) (self s1)) s1)
                  fuel 0 (lit "SP" ++ str_of_int (speed (self st))) _
                  Hs1 Hc1 (encode_command "SP" _ ascii_only_lit_SP) H1)
        as (s2 & E2 & Hs2 & _ & Hac2 & Hc2 & T2 & H2).
      assert (Eac : acceleration (self s2) = acceleration (self st)).
      { rewrite Hac2. simpl. exact Hac1. }
      destruct (send_command_fails_now h
                  (set_self (with_acceleration (acceleration (self st))
                               (self s2)) s2)
                  fuel (lit "AC" ++ str_of_int (acceleration (self st))) _
                  Hs2 Hc2 (encode_command "AC" _ ascii_only_lit_AC) H2)
        as (s3 & E3 & _ & Hc3 & T3).
      exists s3. split; [|split; [exact Hc3|]].
      * rewrite (bind_ret_eq _ _ _ _ _ E1).
        unfold bind at 1, attr at 1. rewrite Hsp1.
        rewrite (bind_ret_eq _ _ _ s2 tt).
        -- unfold bind at 1, attr at 1. rewrite Eac.
           unfold set_acceleration. rewrite (in_range_true _ _ _ Hac).
           unfold bind at 1, assign at 1. change (negb false) with true.
           cbv iota. exact E3.
        -- unfold set_speed. rewrite (in_range_true _ _ _ Hsp).
           unfold bind at 1, assign at 1. change (negb false) with true.
           cbv iota. exact E2.
      * rewrite T3. simpl trace. rewrite T2. simpl trace. rewrite T1.
        rewrite <- app_assoc. reflexivity.
Qed.

Lemma initialize_stops_at_failed_send_witness :
  serves_then_fails 1 2 (polite (lit ">")) 0 (fails_at 2) 0 /\
  exists st',
    initialize 1
      (mkMachine rail (fresh_link (polite (lit ">")) (fails_at 2) None))
    = Some (Raise OSError st') /\
    sock_closed (net st') = false /\
    trace (net st')
    = [Sent (lit "ECH0" ++ [CR]); Slept 200;
       Sent (lit "PW" ++ [CR]); Slept 200].
Proof.
  assert (Hserve : serves_then_fails 1 2 (polite (lit ">")) 0 (fails_at 2) 0).
  { simpl. split; [reflexivity|]. exists 0%nat.
    repeat split; try (intros i Hi; inversion Hi); try discriminate;
      try constructor.
    exists 0%nat.
    repeat split; try (intros i Hi; inversion Hi); try discriminate;
      try constructor.
    exists 0%nat.
    repeat split; try (intros i Hi; inversion Hi); try discriminate;
      try constructor. }
  split; [exact Hserve|].
  exact (initialize_stops_at_failed_send (Sock 3)
           (mkMachine rail (fresh_link (polite (lit ">")) (fails_at 2) None))
           1 2 eq_refl eq_refl
           ltac:(unfold in_ranges; simpl; lia) ltac:(lia) Hserve).
Defined.
